(** * judo-exam-tool: question-data pipeline

    A shallow embedding of the question-generation pipeline of the
    judo-exam-tool repository:
    - [src/services/questionGenerator.ts]: the orchestrator
      [generateQuestionsFromAnswerPdf] and its [extractTextFromPDF];
    - the JSON question loader (the second [jsonQuestionLoader] copy in
      [src/services/bessatsuRenderer.ts]): [convertToQuestion],
      [loadCorrectAnswers], [loadQuestionsFromJson];
    - [src/components/QuestionSession.tsx]: the grading in [handleAnswer];
    - the choice shuffle of [utils/choiceShuffle], which is not part of
      the sources and is modelled from the specification.

    Strings are UTF-8 byte strings ([String.string]); the JavaScript
    notions that count UTF-16 code units ([length], [substring]) and
    [trim] are written out over the bytes. *)

From Stdlib Require Import String Ascii List Bool Arith Lia DecimalString DecimalNat Permutation Sorted.
Import ListNotations.
Open Scope list_scope.
Open Scope string_scope.

(* ------------------------------------------------------------------ *)
(** ** JavaScript string primitives *)

Module Js.

(** [String(n)] / template interpolation of a non-negative integer. *)
Definition of_nat (n : nat) : string :=
  NilEmpty.string_of_uint (Nat.to_uint n).

Definition bytes (l : list nat) : list ascii := map ascii_of_nat l.

(** The characters [String.prototype.trim] removes: ECMAScript
    WhiteSpace and LineTerminator, as UTF-8 byte sequences. *)
Definition white_space : list (list ascii) :=
  map bytes
    [[9]; [10]; [11]; [12]; [13]; [32];
     [194; 160];                          (* U+00A0 *)
     [225; 154; 128];                     (* U+1680 *)
     [226; 128; 128]; [226; 128; 129]; [226; 128; 130]; [226; 128; 131];
     [226; 128; 132]; [226; 128; 133]; [226; 128; 134]; [226; 128; 135];
     [226; 128; 136]; [226; 128; 137]; [226; 128; 138];  (* U+2000..200A *)
     [226; 128; 168]; [226; 128; 169];    (* U+2028, U+2029 *)
     [226; 128; 175];                     (* U+202F *)
     [226; 129; 159];                     (* U+205F *)
     [227; 128; 128];                     (* U+3000 *)
     [239; 187; 191]].                    (* U+FEFF *)

Fixpoint is_prefix (p l : list ascii) : bool :=
  match p, l with
  | [], _ => true
  | a :: p', b :: l' => if ascii_dec a b then is_prefix p' l' else false
  | _ :: _, [] => false
  end.

Fixpoint strip_ws (seqs : list (list ascii)) (fuel : nat) (l : list ascii)
  : list ascii :=
  match fuel with
  | 0 => l
  | S fuel' =>
      match find (fun p => is_prefix p l) seqs with
      | Some p => strip_ws seqs fuel' (skipn (length p) l)
      | None => l
      end
  end.

Definition trim_start (l : list ascii) : list ascii :=
  strip_ws white_space (length l) l.

Definition trim_end (l : list ascii) : list ascii :=
  rev (strip_ws (map (@rev ascii) white_space) (length l) (rev l)).

(** [s.trim()] *)
Definition trim (s : string) : string :=
  string_of_list_ascii (trim_end (trim_start (list_ascii_of_string s))).

(** [s.length]: UTF-16 code units.  Every UTF-8 lead byte starts one
    code unit, a four-byte lead byte starts a surrogate pair. *)
Fixpoint length (s : string) : nat :=
  match s with
  | EmptyString => 0
  | String c s' =>
      let b := nat_of_ascii c in
      (if Nat.ltb b 128 then 1 else if Nat.ltb b 192 then 0 else if Nat.ltb b 240 then 1 else 2)
      + length s'
  end.

(** [toLowerCase] on strings of ASCII characters, where it maps A-Z to
    a-z and keeps every other character; JavaScript also maps non-ASCII
    capitals, which this function keeps, so it stands for [toLowerCase]
    only at ASCII inputs. *)
Definition lower_char (c : ascii) : ascii :=
  let n := nat_of_ascii c in
  if Nat.leb 65 n && Nat.leb n 90 then ascii_of_nat (n + 32) else c.

Fixpoint toLowerCase (s : string) : string :=
  match s with
  | EmptyString => EmptyString
  | String c s' => String (lower_char c) (toLowerCase s')
  end.

(** [hay.includes(needle)] *)
Fixpoint includes (hay needle : string) : bool :=
  String.prefix needle hay ||
  match hay with
  | EmptyString => false
  | String _ h => includes h needle
  end.

(** Truthiness of a string: only the empty string is falsy. *)
Definition truthy (s : string) : bool :=
  match s with EmptyString => false | _ => true end.

(** [a || b] on strings. *)
Definition or_else (a b : string) : string := if truthy a then a else b.

(** [arr[0]] on a string array, [undefined] read as a falsy value. *)
Definition first (l : list string) : string :=
  match l with [] => EmptyString | x :: _ => x end.

Definition nl : string := String (ascii_of_nat 10) EmptyString.
Definition dq : string := String (ascii_of_nat 34) EmptyString.

End Js.

(* ------------------------------------------------------------------ *)
(** ** Data model ([src/types/index.ts], [types/questionData.ts]) *)

Inductive SessionType := gozen | gogo.

Definition session_str (s : SessionType) : string :=
  match s with gozen => "gozen" | gogo => "gogo" end.

Definition session_eqb (a b : SessionType) : bool :=
  match a, b with gozen, gozen | gogo, gogo => true | _, _ => false end.

Record Choice := mkChoice { label : string; text : string }.

Record SupplementReference := mkRef {
  referenceText : string;
  supplementId : string;
  imageNumber : string
}.

Record Question := mkQuestion {
  qid : string;
  year : nat;
  examNumber : nat;
  session : SessionType;
  questionNumber : nat;
  questionText : string;
  choices : list Choice;
  correctAnswer : string;
  correctAnswers : option (list string);
  explanation : string;
  sourceFile : string;
  hasSupplementImage : bool;
  supplementReferences : list SupplementReference;
  category : option string;
  pdfPath : option string;
  isImageBased : bool
}.

(** One record of a structured JSON question file.  Every field that the
    loader reads through [?.] or a truthiness test is optional. *)
Module QuestionData.

Record DataChoices := mkDataChoices {
  ch_a : option string; ch_b : option string; ch_c : option string;
  ch_d : option string; ch_e : option string
}.

Record QuestionDataItem := mkItem {
  questionNumber : nat;
  questionText : string;
  choices : DataChoices;
  correctAnswer : option string;
  correctAnswers : option (list string);
  category : option string;
  bessatsuPage : option nat;
  bessatsuLabel : option string
}.

Record QuestionDataFile := mkFile {
  examNumber : nat;
  year : nat;
  session : SessionType;
  totalQuestions : nat;
  questions : list QuestionDataItem
}.

(** [getQuestionDataPath] *)
Definition getQuestionDataPath (examNumber : nat) (session : SessionType) : string :=
  "/data/questions/" ++ Js.of_nat examNumber ++ "_" ++ session_str session ++ ".json".

End QuestionData.

(** Output of the answer-key parser ([services/answerParser]). *)
Record AnswerEntry := mkAnswer {
  ans_examNumber : nat;
  ans_session : SessionType;
  ans_questionNumber : nat;
  ans_correctAnswers : list string
}.

(** A JavaScript [Map<number, string[]>]: [set] shadows, [get] finds the
    latest binding. *)
Definition AnswerMap := list (nat * list string).

Definition map_set (m : AnswerMap) (k : nat) (v : list string) : AnswerMap :=
  (k, v) :: m.

Fixpoint map_get (m : AnswerMap) (k : nat) : option (list string) :=
  match m with
  | [] => None
  | (k', v) :: m' => if Nat.eqb k k' then Some v else map_get m' k
  end.

(* ------------------------------------------------------------------ *)
(** ** [convertToQuestion] of the JSON loader *)

Section Convert.

Variable getCategoryByQuestionNumber : nat -> SessionType -> string.

(** [item.choices.x?.trim() || ''] *)
Definition trimmed_choice (o : option string) : string :=
  match o with Some s => Js.or_else (Js.trim s) "" | None => "" end.

(** choices a..d, then e when [item.choices.e && item.choices.e.trim()],
    then [filter(c => c.text !== '')] *)
Definition build_choices (c : QuestionData.DataChoices) : list Choice :=
  let base :=
    [mkChoice "a" (trimmed_choice (QuestionData.ch_a c));
     mkChoice "b" (trimmed_choice (QuestionData.ch_b c));
     mkChoice "c" (trimmed_choice (QuestionData.ch_c c));
     mkChoice "d" (trimmed_choice (QuestionData.ch_d c))] in
  let withE :=
    match QuestionData.ch_e c with
    | Some e => if Js.truthy e && Js.truthy (Js.trim e)
                then (base ++ [mkChoice "e" (Js.trim e)])%list else base
    | None => base
    end in
  filter (fun ch => negb (String.eqb (text ch) "")) withE.

(** The answer precedence: in-file [correctAnswers], in-file
    [correctAnswer], then the answer map read from the answer-key PDF. *)
Definition decide_answers (item : QuestionData.QuestionDataItem)
    (pdfCorrectAnswers : AnswerMap) : string * option (list string) :=
  match QuestionData.correctAnswers item with
  | Some (x :: rest) => (x, if Nat.ltb 1 (length (x :: rest)) then Some (x :: rest) else None)
  | _ =>
      match QuestionData.correctAnswer item with
      | Some s => if Js.truthy s then (s, None)
                  else let l := match map_get pdfCorrectAnswers (QuestionData.questionNumber item)
                                with Some l => l | None => [] end in
                       (Js.first l, if Nat.ltb 1 (length l) then Some l else None)
      | None =>
          let l := match map_get pdfCorrectAnswers (QuestionData.questionNumber item)
                   with Some l => l | None => [] end in
          (Js.first l, if Nat.ltb 1 (length l) then Some l else None)
      end
  end.

Definition convertToQuestion (item : QuestionData.QuestionDataItem)
    (examNumber : nat) (year : nat) (session : SessionType)
    (pdfCorrectAnswers : AnswerMap) : Question :=
  let n := QuestionData.questionNumber item in
  let ans := decide_answers item pdfCorrectAnswers in
  let cat :=
    match QuestionData.category item with
    | Some c => if Js.truthy c then c else getCategoryByQuestionNumber n session
    | None => getCategoryByQuestionNumber n session
    end in
  let refs :=
    match QuestionData.bessatsuPage item with
    | Some (S _ as p) =>
        [mkRef (match QuestionData.bessatsuLabel item with
                | Some l => Js.or_else l ("別冊 ページ" ++ Js.of_nat p)
                | None => "別冊 ページ" ++ Js.of_nat p end)
               (Js.of_nat examNumber ++ "-" ++ session_str session ++ "-bessatsu-" ++ Js.of_nat p)
               (Js.of_nat p)]
    | _ => []
    end in
  mkQuestion
    (Js.of_nat examNumber ++ "-" ++ session_str session ++ "-" ++ Js.of_nat n)
    year examNumber session n
    (Js.trim (QuestionData.questionText item))
    (build_choices (QuestionData.choices item))
    (fst ans) (snd ans)
    ""
    (Js.of_nat examNumber ++ "_" ++ session_str session ++ ".json")
    (match QuestionData.bessatsuPage item with Some (S _) => true | _ => false end)
    refs (Some cat) None false.

End Convert.

(* ------------------------------------------------------------------ *)
(** ** Grading ([handleAnswer] in [QuestionSession.tsx]) *)

Section Grading.

(** The runtime's [String.prototype.toLowerCase], whose Unicode case
    mappings are not re-implemented here: the grading is stated for
    whatever function it is. *)
Variable toLowerCase : string -> string.

Definition isCorrect (q : Question) (selectedAnswer : string) : bool :=
  let correctAnswerList :=
    match correctAnswers q with
    | Some (x :: rest) => x :: rest
    | _ => [correctAnswer q]
    end in
  existsb (fun ca => String.eqb (toLowerCase ca) (toLowerCase selectedAnswer))
          correctAnswerList.

End Grading.

(** The in-file answer fields alone, as [decide_answers] reads them
    ([None] when the record carries no answer of its own). *)
Definition in_file_answers (item : QuestionData.QuestionDataItem)
  : option (string * option (list string)) :=
  match QuestionData.correctAnswers item with
  | Some (x :: rest) => Some (x, if Nat.ltb 1 (length (x :: rest)) then Some (x :: rest) else None)
  | _ =>
      match QuestionData.correctAnswer item with
      | Some s => if Js.truthy s then Some (s, None) else None
      | None => None
      end
  end.

(** The answers taken from the answer-key map for question [n]. *)
Definition pdf_fallback_answers (m : AnswerMap) (n : nat) : string * option (list string) :=
  let l := match map_get m n with Some l => l | None => [] end in
  (Js.first l, if Nat.ltb 1 (length l) then Some l else None).

(* ------------------------------------------------------------------ *)
(** ** Effects: an event log and thrown errors *)

(** Supplement records as the orchestrator keeps them. *)
Record Supplement := mkSupplement {
  s_id : string;
  s_imageNumber : string;
  s_examNumber : nat;
  s_session : SessionType;
  s_questionNumbers : option (list nat)
}.

(** Observable I/O steps.  [EvExtract] is the orchestrator's own
    [extractTextFromPDF]; [EvAnswerMapExtract] is the JSON loader's
    extraction of the answer key in [loadCorrectAnswers]. *)
Inductive Event :=
| EvCheckJson (attempt : nat)
| EvFetchJson (attempt : nat)
| EvAnswerMapExtract (path : string)
| EvFetchBessatsu (path : string)
| EvExtract (path : string).

Inductive Res (A : Type) := Ok (a : A) | Err (msg : string).
Arguments Ok {A} a.
Arguments Err {A} msg.

(** A computation logs its events and ends in a value or a thrown error. *)
Definition M (A : Type) : Type := (list Event * Res A)%type.

Definition ret {A} (a : A) : M A := ([], Ok a).
Definition throw {A} (msg : string) : M A := ([], Err msg).
Definition emit (e : Event) : M unit := ([e], Ok tt).

Definition bind {A B} (m : M A) (f : A -> M B) : M B :=
  match m with
  | (l, Ok a) => let (l', r) := f a in ((l ++ l')%list, r)
  | (l, Err e) => (l, Err e)
  end.

(** [try { m } catch (e) { h(e) }] *)
Definition catch {A} (m : M A) (h : string -> M A) : M A :=
  match m with
  | (l, Err e) => let (l', r) := h e in ((l ++ l')%list, r)
  | ok => ok
  end.

(** [try] that hands the outcome to the continuation. *)
Definition attempt {A} (m : M A) : M (A + string) :=
  match m with
  | (l, Ok a) => (l, Ok (inl a))
  | (l, Err e) => (l, Ok (inr e))
  end.

Notation "x <- m ;; k" := (bind m (fun x => k))
  (at level 61, m at next level, right associativity).
Notation "m ;; k" := (bind m (fun _ => k))
  (at level 61, right associativity).

(* ------------------------------------------------------------------ *)
(** ** The environment of one (exam number, session) request *)

(** What fetching a PDF gives: not found, zero bytes, rejected by pdf.js
    (with its message), or the pages, each as its text items in reading
    order (the positional sort on the items' floating-point coordinates
    is folded into that order). *)
Inductive PdfResp :=
| PdfMissing
| PdfEmpty
| PdfBroken (msg : string)
| PdfPages (pages : list (list string)).

(** What fetching the JSON question file gives. *)
Inductive JsonResp :=
| JsonNotOk
| JsonHtml
| JsonUnparsable
| JsonData (data : QuestionData.QuestionDataFile).

(** The JSON source is addressed twice at most (the first attempt and the
    fallback); its responses are indexed by the attempt.  Configuration
    lookups ([getExamConfig], [get*PdfPath] of [config/pdfConfig]) and the
    supplement extraction ([extractSupplementsFromPDF]) are results. *)
Record World := mkWorld {
  w_json_head : nat -> bool;
  w_json_get : nat -> JsonResp;
  w_exam_year : option nat;
  w_answer_path : option string;
  w_question_path : option string;
  w_bessatsu_path : option string;
  w_pdf : string -> PdfResp;
  w_supplements : list Supplement
}.

Definition placeholder (t : string) : list Choice :=
  [mkChoice "a" t; mkChoice "b" t; mkChoice "c" t; mkChoice "d" t].

Definition NOT_FOUND_QUESTION : string := "問題が見つかりませんでした".
Definition NOT_FOUND_CHOICES : string := "選択肢が見つかりませんでした".

(** [s.substring(0, n)], counted in UTF-16 code units.  A surrogate
    pair that does not fit is left out whole. *)
Fixpoint substring0 (n : nat) (s : string) : string :=
  match s with
  | EmptyString => EmptyString
  | String c s' =>
      let b := nat_of_ascii c in
      let u := if Nat.ltb b 128 then 1 else if Nat.ltb b 192 then 0
               else if Nat.ltb b 240 then 1 else 2 in
      if Nat.eqb u 0 then String c (substring0 n s')
      else if Nat.ltb n u then EmptyString
      else String c (substring0 (n - u) s')
  end.

(** The guidance text of the scanned-PDF error: the expected JSON file. *)
Definition json_template (examNumber year : nat) (session : SessionType) : string :=
  let key (k : string) : string := Js.dq ++ k ++ Js.dq in
  let ln (s : string) : string := s ++ Js.nl in
  ln "{" ++
  ln ("  " ++ key "examNumber" ++ ": " ++ Js.of_nat examNumber ++ ",") ++
  ln ("  " ++ key "year" ++ ": " ++ Js.of_nat year ++ ",") ++
  ln ("  " ++ key "session" ++ ": " ++ key (session_str session) ++ ",") ++
  ln ("  " ++ key "totalQuestions" ++ ": 115,") ++
  ln ("  " ++ key "questions" ++ ": [") ++
  ln "    {" ++
  ln ("      " ++ key "questionNumber" ++ ": 1,") ++
  ln ("      " ++ key "questionText" ++ ": " ++ key "問題文をここに入力" ++ ",") ++
  ln ("      " ++ key "choices" ++ ": {") ++
  ln ("        " ++ key "a" ++ ": " ++ key "選択肢1" ++ ",") ++
  ln ("        " ++ key "b" ++ ": " ++ key "選択肢2" ++ ",") ++
  ln ("        " ++ key "c" ++ ": " ++ key "選択肢3" ++ ",") ++
  ln ("        " ++ key "d" ++ ": " ++ key "選択肢4" ++ ",") ++
  ln ("        " ++ key "e" ++ ": " ++ key "選択肢5") ++
  ln "      }," ++
  ln ("      " ++ key "bessatsuPage" ++ ": 1  // 別冊が必要な場合のページ番号（省略可）") ++
  ln "    }" ++
  ln "  ]" ++
  "}".

Definition scanned_pdf_message (examNumber year : nat) (session : SessionType) : string :=
  "問題PDFはスキャン画像のためテキスト抽出ができません。" ++ Js.nl ++
  "JSONファイル（" ++ QuestionData.getQuestionDataPath examNumber session ++
  "）を作成して問題データを入力してください。" ++ Js.nl ++ Js.nl ++
  "JSONファイルの形式:" ++ Js.nl ++
  json_template examNumber year session.

Section Pipeline.

(** Code the orchestrator imports from modules outside the sources:
    [answerParser.parseAnswerText], [pdfParser.parseQuestionText] (the
    [questionText] it returns, [""] when none) and [extractChoices],
    [supplementLinker.detectSupplementReferences] and
    [linkSupplementReferences], [config/categoryConfig]'s lookup; and the
    regular-expression searches written inline in the orchestrator: the
    section search over its three numbered patterns and the flexible one
    ([""] when nothing long enough matched), and the two flexible choice
    loops.  Every theorem holds for all of them. *)
Variable parseAnswerText : string -> nat -> list AnswerEntry.
Variable parseQuestionText : string -> string.
Variable extractChoices : string -> list Choice.
Variable locateSection : string -> nat -> string.
Variable flexibleChoices1 : string -> list Choice.
Variable flexibleChoices2 : string -> list Choice.
Variable detectSupplementReferences : string -> list SupplementReference.
Variable linkSupplementReferences :
  list SupplementReference -> nat -> SessionType -> list Supplement ->
  list SupplementReference.
Variable getCategoryByQuestionNumber : nat -> SessionType -> string.

Variable w : World.

(** *** JSON loader *)

(** [checkJsonExists] *)
Definition checkJsonExists (k : nat) : M bool :=
  emit (EvCheckJson k) ;; ret (w_json_head w k).

(** The loader's [extractTextFromPDF(blob)]: every page, its items
    joined by spaces, then a newline. *)
Definition blob_text (pages : list (list string)) : string :=
  String.concat "" (map (fun p => String.concat " " p ++ Js.nl) pages).

Definition session_answer_map (session : SessionType) (answers : list AnswerEntry)
  : AnswerMap :=
  fold_left (fun m a =>
               if session_eqb (ans_session a) session
               then map_set m (ans_questionNumber a) (ans_correctAnswers a) else m)
            answers [].

(** [loadCorrectAnswers]: never throws; any failure leaves the map empty. *)
Definition loadCorrectAnswers (examNumber : nat) (session : SessionType) : M AnswerMap :=
  match w_answer_path w with
  | None => ret []
  | Some p =>
      match w_pdf w p with
      | PdfMissing => ret []
      | PdfPages pages =>
          emit (EvAnswerMapExtract p) ;;
          ret (session_answer_map session (parseAnswerText (blob_text pages) examNumber))
      | _ => emit (EvAnswerMapExtract p) ;; ret []
      end
  end.

(** [loadQuestionsFromJson]: never throws; failures give [[]]. *)
Definition loadQuestionsFromJson (k : nat) (examNumber : nat) (session : SessionType)
  : M (list Question) :=
  emit (EvFetchJson k) ;;
  match w_json_get w k with
  | JsonData data =>
      correct <- loadCorrectAnswers examNumber session ;;
      ret (map (fun item =>
                  convertToQuestion getCategoryByQuestionNumber item
                    (QuestionData.examNumber data) (QuestionData.year data)
                    (QuestionData.session data) correct)
               (QuestionData.questions data))
  | _ => ret []
  end.

(** [if (await checkJsonExists(..)) { const q = await loadQuestionsFromJson(..); ... }] *)
Definition json_attempt (k : nat) (examNumber : nat) (session : SessionType)
  : M (list Question) :=
  exists_ <- checkJsonExists k ;;
  if exists_ then loadQuestionsFromJson k examNumber session else ret [].

(** *** The orchestrator's [extractTextFromPDF] *)

Definition page_text (items : list string) : string :=
  String.concat " " items ++ Js.nl.

Definition extractTextFromPDF (pdfPath : string) : M string :=
  emit (EvExtract pdfPath) ;;
  let fail (m : string) : M string :=
    throw ("PDFテキスト抽出エラー: " ++ pdfPath ++ " - " ++ m) in
  match w_pdf w pdfPath with
  | PdfMissing =>
      fail ("PDFファイルが見つかりません: " ++ pdfPath ++
            "（ファイルが存在しないか、パスが間違っています）")
  | PdfEmpty => fail ("PDFファイルが空です: " ++ pdfPath)
  | PdfBroken m => fail m
  | PdfPages [] => fail ("PDFにページがありません: " ++ pdfPath)
  | PdfPages pages =>
      (* pages without text items are skipped *)
      let fullText :=
        String.concat "" (map page_text (filter (fun p => negb (Nat.eqb (length p) 0)) pages)) in
      if Nat.eqb (Js.length (Js.trim fullText)) 0
      then fail ("PDFからテキストを抽出できませんでした（スキャン画像PDFの可能性）: " ++ pdfPath)
      else ret fullText
  end.

(** *** One answer entry to one [Question] (the loop body) *)

(** Supplement linking: text-driven references, relinked when a
    supplement PDF was read, then the metadata-driven ones, skipping the
    image numbers collected once before the loop. *)
Definition link_supplements (examNumber : nat) (session : SessionType)
    (supplements : list Supplement) (n : nat) (questionText : string)
  : list SupplementReference :=
  let supplementReferences := detectSupplementReferences questionText in
  match supplements with
  | [] => supplementReferences
  | _ =>
      let linked :=
        match supplementReferences with
        | [] => supplementReferences
        | _ => linkSupplementReferences supplementReferences examNumber session supplements
        end in
      let forThis :=
        filter (fun supp => match s_questionNumbers supp with
                            | Some l => existsb (Nat.eqb n) l
                            | None => false end) supplements in
      match forThis with
      | [] => linked
      | _ =>
          let existingImageNumbers := map imageNumber linked in
          fold_left (fun acc supp =>
                       if existsb (String.eqb (s_imageNumber supp)) existingImageNumbers
                       then acc
                       else (acc ++ [mkRef ("別冊 " ++ s_imageNumber supp)
                                          (s_id supp) (s_imageNumber supp)])%list)
                    forThis linked
      end
  end.

(** The initial [questionText], kept when no section is found. *)
Definition default_question_text (examNumber : nat) (session : SessionType) (n : nat)
  : string :=
  "第" ++ Js.of_nat examNumber ++ "回 " ++
  (match session with gozen => "午前" | gogo => "午後" end) ++
  " 問" ++ Js.of_nat n.

(** Section search and choice extraction; placeholders when either fails. *)
Definition question_body (examNumber : nat) (session : SessionType)
    (questionPdfText : string) (n : nat) : string * list Choice :=
  let default := default_question_text examNumber session n in
  let questionSection := locateSection questionPdfText n in
  if Js.truthy questionSection then
    let qtext := Js.or_else (parseQuestionText questionSection)
                            (substring0 500 questionSection) in
    let ex0 := extractChoices questionSection in
    let ex1 := match ex0 with [] => flexibleChoices1 questionSection | _ => ex0 end in
    let ex2 := match ex1 with [] => flexibleChoices2 questionSection | _ => ex1 end in
    (qtext, match ex2 with [] => placeholder NOT_FOUND_CHOICES | _ => ex2 end)
  else (default, placeholder NOT_FOUND_QUESTION).

Definition build_question (examNumber year : nat) (session : SessionType)
    (questionPdfPath : string) (supplements : list Supplement)
    (questionPdfText : string) (answer : AnswerEntry) : Question :=
  let n := ans_questionNumber answer in
  let body := question_body examNumber session questionPdfText n in
  let cas := ans_correctAnswers answer in
  let refs := link_supplements examNumber session supplements n (fst body) in
  mkQuestion
    (Js.of_nat examNumber ++ "-" ++ session_str session ++ "-" ++ Js.of_nat n)
    year examNumber session n (fst body) (snd body)
    (Js.or_else (Js.first cas) "a")
    (Some cas)
    (if Nat.ltb 1 (length cas) then "複数正答: " ++ String.concat ", " cas else "")
    questionPdfPath
    (negb (Nat.eqb (length refs) 0))
    refs None (Some questionPdfPath) false.

(** *** [generateQuestionsFromAnswerPdf] *)

(** The JSON fallback inside the text path: return its questions if it
    yields any, otherwise run [failure]. *)
Definition json_fallback (examNumber : nat) (session : SessionType)
    (failure : M (list Question)) : M (list Question) :=
  qs <- json_attempt 1 examNumber session ;;
  match qs with [] => failure | _ => ret qs end.

Definition session_answers (examNumber : nat) (session : SessionType)
    (answerText : string) : list AnswerEntry :=
  filter (fun a => session_eqb (ans_session a) session)
         (parseAnswerText answerText examNumber).

(** The body of the [try] block (lines 297-609). *)
Definition text_path (examNumber year : nat) (session : SessionType)
    (answerPdfPath questionPdfPath : string) (supplements : list Supplement)
  : M (list Question) :=
  answerText <- catch (extractTextFromPDF answerPdfPath)
                      (fun e => throw ("正答PDFの読み込みに失敗: " ++ answerPdfPath ++ " - " ++ e)) ;;
  if negb (Js.truthy answerText) || Nat.eqb (Js.length (Js.trim answerText)) 0
  then throw ("正答PDFのテキスト抽出に失敗（空のテキスト）: " ++ answerPdfPath)
  else
  match session_answers examNumber session answerText with
  | [] =>
      throw ("正答データが見つかりません: 第" ++ Js.of_nat examNumber ++ "回 " ++
             session_str session ++ "。抽出されたテキストを確認してください。")
  | sessionAnswers =>
      r <- attempt (extractTextFromPDF questionPdfPath) ;;
      match r with
      | inr e =>
          json_fallback examNumber session
            (throw ("問題PDFのテキスト抽出に失敗: " ++ questionPdfPath ++ " - " ++ e))
      | inl questionPdfText =>
          if negb (Js.truthy questionPdfText) ||
             Nat.ltb (Js.length (Js.trim questionPdfText)) 100
          then json_fallback examNumber session
                 (throw (scanned_pdf_message examNumber year session))
          else ret (map (build_question examNumber year session questionPdfPath
                          supplements questionPdfText) sessionAnswers)
      end
  end.

(** The supplement PDF: read when configured and fetchable; a failing
    extraction is caught and leaves the list empty. *)
Definition load_supplements : M (list Supplement) :=
  match w_bessatsu_path w with
  | None => ret []
  | Some p =>
      emit (EvFetchBessatsu p) ;;
      match w_pdf w p with
      | PdfMissing => ret []
      | _ => ret (w_supplements w)
      end
  end.

Definition generateQuestionsFromAnswerPdf (examNumber : nat) (session : SessionType)
  : M (list Question) :=
  jsonQuestions <- json_attempt 0 examNumber session ;;
  match jsonQuestions with
  | _ :: _ => ret jsonQuestions
  | [] =>
      match w_exam_year w with
      | None => ret []
      | Some year =>
          match w_answer_path w with
          | None =>
              throw ("正答PDFが見つかりません: 第" ++ Js.of_nat examNumber ++
                     "回（設定ファイルを確認してください）")
          | Some answerPdfPath =>
              match w_question_path w with
              | None =>
                  throw ("問題PDFが見つかりません: 第" ++ Js.of_nat examNumber ++ "回 " ++
                         session_str session ++ "（設定ファイルを確認してください）")
              | Some questionPdfPath =>
                  supplements <- load_supplements ;;
                  catch (text_path examNumber year session answerPdfPath questionPdfPath supplements)
                        (fun e => throw ("第" ++ Js.of_nat examNumber ++ "回 " ++
                                         session_str session ++ "の問題生成に失敗: " ++ e))
              end
          end
      end
  end.

End Pipeline.

(* ------------------------------------------------------------------ *)
(** ** Choice shuffle ([utils/choiceShuffle], not in the sources) *)

Module Shuffle.

(** Modelled from the spec: [shuffleAllChoices] of [utils/choiceShuffle]
    is missing from the sources; this follows section 4.6.  The random
    permutation is an argument ([perm], any reordering of the choices);
    labels a, b, c, ... are reassigned in the new order; a mapping from
    each choice's old label to its new label is built by position; and
    [correctAnswer] and every entry of [correctAnswers] go through that
    mapping.  A label the mapping does not know has no image: it becomes
    the empty label, which names no choice. *)
Definition letter (i : nat) : string := String (ascii_of_nat (97 + i)) EmptyString.

Fixpoint relabel (i : nat) (perm : list Choice) : list (Choice * string) :=
  match perm with
  | [] => []
  | c :: rest => (c, letter i) :: relabel (S i) rest
  end.

Fixpoint lookup (m : list (string * string)) (k : string) : option string :=
  match m with
  | [] => None
  | (k', v) :: m' => if String.eqb k k' then Some v else lookup m' k
  end.

Definition remap (m : list (string * string)) (l : string) : string :=
  match lookup m l with Some v => v | None => EmptyString end.

Definition shuffleChoices (q : Question) (perm : list Choice) : Question :=
  let pairs := relabel 0 perm in
  let mapping := map (fun p => (label (fst p), snd p)) pairs in
  {| qid := qid q; year := year q; examNumber := examNumber q;
     session := session q; questionNumber := questionNumber q;
     questionText := questionText q;
     choices := map (fun p => mkChoice (snd p) (text (fst p))) pairs;
     correctAnswer := remap mapping (correctAnswer q);
     correctAnswers := option_map (map (remap mapping)) (correctAnswers q);
     explanation := explanation q; sourceFile := sourceFile q;
     hasSupplementImage := hasSupplementImage q;
     supplementReferences := supplementReferences q;
     category := category q; pdfPath := pdfPath q;
     isImageBased := isImageBased q |}.

(** The labels a question counts as correct (as [handleAnswer] picks
    them). *)
Definition correct_labels (q : Question) : list string :=
  match correctAnswers q with
  | Some (x :: rest) => x :: rest
  | _ => [correctAnswer q]
  end.

(** Grading a selected choice by its text: some choice with text [t],
    selected by its label, is graded correct by [handleAnswer]'s test
    (with the runtime's [toLowerCase]). *)
Definition correct_text (toLowerCase : string -> string) (q : Question) (t : string) : bool :=
  existsb (fun c => String.eqb (text c) t && isCorrect toLowerCase q (label c))
          (choices q).

End Shuffle.

(** A world whose JSON question file is [f], on every attempt. *)
Definition with_json_file (w : World) (f : QuestionData.QuestionDataFile) : World :=
  {| w_json_head := fun _ => true; w_json_get := fun _ => JsonData f;
     w_exam_year := w_exam_year w; w_answer_path := w_answer_path w;
     w_question_path := w_question_path w; w_bessatsu_path := w_bessatsu_path w;
     w_pdf := w_pdf w; w_supplements := w_supplements w |}.

(** The one-question files of the two scenarios. *)
Definition scenario_item (qt : string) (ca : option string) (cas : option (list string))
  : QuestionData.QuestionDataItem :=
  QuestionData.mkItem 1 qt
    (QuestionData.mkDataChoices (Some "X") (Some "Y") (Some "Z") (Some "W") None)
    ca cas None None None.

Definition scenario_file (e y : nat) (s : SessionType) (item : QuestionData.QuestionDataItem)
  : QuestionData.QuestionDataFile :=
  QuestionData.mkFile e y s 1 [item].

(** A record whose in-file [correctAnswers] names a label, e, that has
    no choice. *)
Definition item_multi_e : QuestionData.QuestionDataItem :=
  QuestionData.mkItem 1 "q"
    (QuestionData.mkDataChoices (Some "X") (Some "Y") (Some "Z") (Some "W") None)
    None (Some ["a"; "e"]) None None None.

(** A record with one non-blank choice. *)
Definition item_blank_choices : QuestionData.QuestionDataItem :=
  QuestionData.mkItem 1 "q"
    (QuestionData.mkDataChoices (Some "X") (Some "  ") None None None)
    (Some "a") None None None None.

(** Two supplement images carrying the same image number, both marked as
    belonging to question 1. *)
Definition dup_supplements : list Supplement :=
  [mkSupplement "30-gozen-1-p3" "1" 30 gozen (Some [1]);
   mkSupplement "30-gozen-1-p4" "1" 30 gozen (Some [1])].

(** A session with no JSON file whose question PDF has pages but no text
    item on any page (a scanned booklet); the answer key is readable. *)
Definition ANSWER_PDF : string := "/pdf/30_seitou.pdf".
Definition QUESTION_PDF : string := "/pdf/30_gozen.pdf".

Definition world_scanned : World :=
  mkWorld (fun _ => false) (fun _ => JsonNotOk) (Some 2018)
    (Some ANSWER_PDF) (Some QUESTION_PDF) None
    (fun p => if String.eqb p ANSWER_PDF then PdfPages [["問1"; "a"; "問2"; "b"]]
              else PdfPages [[]; []])
    [].


(** The session with no JSON file and no answer-key path configured. *)
Definition world_no_answer_path : World :=
  mkWorld (fun _ => false) (fun _ => JsonNotOk) (Some 2018)
    None (Some QUESTION_PDF) None (fun _ => PdfMissing) [].

(** The session with no JSON file and no exam configuration. *)
Definition world_no_config : World :=
  mkWorld (fun _ => false) (fun _ => JsonNotOk) None None None None (fun _ => PdfMissing) [].

(** A one-question JSON file for the session of [world_scanned]. *)
Definition world_json : World :=
  with_json_file world_scanned
    (scenario_file 30 2018 gozen (scenario_item "q" (Some "b") None)).

(** A parser result for the answer key of exam 30. *)
Definition answers_30 (_ : string) (_ : nat) : list AnswerEntry :=
  [mkAnswer 30 gozen 1 ["a"]; mkAnswer 30 gozen 2 ["b"]].

Definition no_answers (_ : string) (_ : nat) : list AnswerEntry := [].


(** The orchestrator with helpers that find nothing: no question text,
    no choices, no section, no supplement reference. *)
Definition gen_plain (pa : string -> nat -> list AnswerEntry) (w : World)
  : nat -> SessionType -> M (list Question) :=
  generateQuestionsFromAnswerPdf pa (fun _ => "") (fun _ => []) (fun _ _ => "")
    (fun _ => []) (fun _ => []) (fun _ => []) (fun refs _ _ _ => refs) (fun _ _ => "") w.



(** A three-choice question with answer b, and a reordering that puts
    its choice b first. *)
Definition shuffle_question : Question :=
  mkQuestion "30-gozen-1" 2018 30 gozen 1 "q"
    [mkChoice "a" "X"; mkChoice "b" "Y"; mkChoice "c" "Z"]
    "b" None "" "" false [] None None false.

Definition shuffle_perm : list Choice :=
  [mkChoice "b" "Y"; mkChoice "a" "X"; mkChoice "c" "Z"].

(** The same question with its answer written in capitals, as a JSON
    record may give it ([convertToQuestion] keeps it as written). *)
Definition shuffle_question_upper : Question :=
  mkQuestion "30-gozen-1" 2018 30 gozen 1 "q"
    [mkChoice "a" "X"; mkChoice "b" "Y"; mkChoice "c" "Z"]
    "B" None "" "" false [] None None false.

(* ------------------------------------------------------------------ *)
(** ** Subject categories ([src/config/categoryConfig.ts]) *)

Module CategoryConfig.

Inductive CategoryId :=
| anatomy | physiology | kinesiology | pathology | hygiene | clinical_general
| surgery | orthopedics | rehabilitation | judo_therapy | law.

(** The string a [CategoryId] is at run time. *)
Definition category_str (c : CategoryId) : string :=
  match c with
  | anatomy => "anatomy" | physiology => "physiology" | kinesiology => "kinesiology"
  | pathology => "pathology" | hygiene => "hygiene"
  | clinical_general => "clinical_general" | surgery => "surgery"
  | orthopedics => "orthopedics" | rehabilitation => "rehabilitation"
  | judo_therapy => "judo_therapy" | law => "law"
  end.

Definition cat_eqb (a b : CategoryId) : bool := String.eqb (category_str a) (category_str b).

Record CategoryInfo := mkCategoryInfo {
  id : CategoryId;
  name : string;
  shortName : string;
  description : string;
  color : string
}.

(** [CATEGORIES: Record<CategoryId, CategoryInfo>] *)
Definition CATEGORIES (c : CategoryId) : CategoryInfo :=
  match c with
  | anatomy =>
      mkCategoryInfo anatomy "解剖学" "解剖"
        "人体の構造（骨格系、筋系、神経系、脈管系、内臓系など）" "blue"
  | physiology =>
      mkCategoryInfo physiology "生理学" "生理"
        "人体の機能（細胞、神経、筋、循環、呼吸、消化、内分泌など）" "green"
  | kinesiology =>
      mkCategoryInfo kinesiology "運動学" "運動"
        "運動力学、関節運動、筋の機能、姿勢・歩行" "purple"
  | pathology =>
      mkCategoryInfo pathology "病理学概論" "病理"
        "循環障害、退行性・進行性病変、炎症、免疫、腫瘍" "red"
  | hygiene =>
      mkCategoryInfo hygiene "衛生学・公衆衛生学" "衛生"
        "疫学、母子保健、成人・高齢者保健、感染症、環境衛生" "teal"
  | clinical_general =>
      mkCategoryInfo clinical_general "一般臨床医学" "臨床"
        "診察法、バイタルサイン、内科学、神経疾患、膠原病" "orange"
  | surgery =>
      mkCategoryInfo surgery "外科学概論" "外科"
        "創傷処置、消毒・滅菌、出血・ショック、心肺蘇生" "pink"
  | orthopedics =>
      mkCategoryInfo orthopedics "整形外科学" "整形"
        "骨・軟部腫瘍、代謝性骨疾患、骨端症、部位別疾患" "indigo"
  | rehabilitation =>
      mkCategoryInfo rehabilitation "リハビリテーション医学" "リハ"
        "ICF、評価（MMT・ROM・ADL）、装具、運動療法" "cyan"
  | judo_therapy =>
      mkCategoryInfo judo_therapy "柔道整復理論" "柔理"
        "骨折・脱臼・軟部組織損傷の診察・整復・固定・後療法" "amber"
  | law =>
      mkCategoryInfo law "関係法規" "法規"
        "柔道整復師法、医事関係法規、社会保険制度" "gray"
  end.

Definition CATEGORY_LIST : list CategoryId :=
  [judo_therapy; law; anatomy; physiology; kinesiology; pathology; hygiene;
   rehabilitation; clinical_general; surgery; orthopedics].

Record QuestionRangeMapping := mkRange {
  startQuestion : nat;
  endQuestion : nat;
  category : CategoryId
}.

Definition GOZEN_CATEGORY_MAPPING : list QuestionRangeMapping :=
  [mkRange 1 40 judo_therapy; mkRange 41 50 law; mkRange 51 80 anatomy;
   mkRange 81 105 physiology; mkRange 106 115 kinesiology; mkRange 116 128 pathology].

Definition GOGO_CATEGORY_MAPPING : list QuestionRangeMapping :=
  [mkRange 1 12 hygiene; mkRange 13 23 rehabilitation; mkRange 24 45 clinical_general;
   mkRange 46 56 surgery; mkRange 57 67 orthopedics; mkRange 68 122 judo_therapy].

(** The [for (const range of mapping)] loop: the first range containing
    the number. *)
Fixpoint first_range (mapping : list QuestionRangeMapping) (questionNumber : nat)
  : option CategoryId :=
  match mapping with
  | [] => None
  | range :: rest =>
      if Nat.leb (startQuestion range) questionNumber &&
         Nat.leb questionNumber (endQuestion range)
      then Some (category range) else first_range rest questionNumber
  end.

Definition session_mapping (session : SessionType) : list QuestionRangeMapping :=
  match session with gozen => GOZEN_CATEGORY_MAPPING | gogo => GOGO_CATEGORY_MAPPING end.

Definition getCategoryByQuestionNumber (questionNumber : nat) (session : SessionType)
  : CategoryId :=
  match first_range (session_mapping session) questionNumber with
  | Some c => c
  | None => judo_therapy
  end.

Definition getCategoryInfo (categoryId : CategoryId) : CategoryInfo :=
  CATEGORIES categoryId.

Definition getAllCategories : list CategoryInfo := map CATEGORIES CATEGORY_LIST.

End CategoryConfig.

(* ------------------------------------------------------------------ *)
(** ** PDF configuration (the [config/pdfConfig] part of
    [src/config/categoryConfig.ts]) *)

Module PdfConfig.

Record SessionPdfConfig := mkSessionPdfConfig {
  questionPdf : string;
  bessatsuPdf : option string;
  questionCount : nat
}.

(** [sessions: { gozen; gogo }] as one field per session. *)
Record ExamConfig := mkExamConfig {
  examNumber : nat;
  year : nat;
  hasAnswerPdf : bool;
  sessions_gozen : SessionPdfConfig;
  sessions_gogo : SessionPdfConfig
}.

(** [config.sessions[session]] *)
Definition sessions (config : ExamConfig) (session : SessionType) : SessionPdfConfig :=
  match session with gozen => sessions_gozen config | gogo => sessions_gogo config end.

Definition EXAM_CONFIGS : list ExamConfig :=
  [mkExamConfig 29 2021 true
     (mkSessionPdfConfig "2021_29_gozen.pdf" (Some "2021_29_gozen_bessatsu.pdf") 115)
     (mkSessionPdfConfig "2021_29_gogo.pdf" (Some "2021_29_gogo_bessatsu.pdf") 115);
   mkExamConfig 30 2022 true
     (mkSessionPdfConfig "2022_30_gozen.pdf" (Some "2022_30_gozen_bessatsu.pdf") 115)
     (mkSessionPdfConfig "2022_30_gogo.pdf" (Some "2022_30_gogo_bessatsu.pdf") 115);
   mkExamConfig 31 2023 true
     (mkSessionPdfConfig "2023_31_gozen.pdf" (Some "2023_31_gozen_bessatsu.pdf") 115)
     (mkSessionPdfConfig "2023_31_gogo.pdf" (Some "2023_31_gogo_bessatsu.pdf") 115);
   mkExamConfig 32 2024 true
     (mkSessionPdfConfig "2024_32_gozen.pdf" (Some "2024_32_gozen_bessatsu.pdf") 115)
     (mkSessionPdfConfig "2024_32_gogo.pdf" (Some "2024_32_gogo_bessatsu.pdf") 115);
   mkExamConfig 33 2025 true
     (mkSessionPdfConfig "2025_33_gozen.pdf" (Some "2025_33_gozen_bessatsu.pdf") 115)
     (mkSessionPdfConfig "2025_33_gogo.pdf" (Some "2025_33_gozen_bessatsu.pdf") 115)].

(** [ANSWER_PDF_MAP: Record<number, string>] *)
Definition ANSWER_PDF_MAP : list (nat * string) :=
  [(29, "29_seitou.pdf"); (30, "30_seitou.pdf"); (31, "31_seitou.pdf");
   (32, "32_seitou.pdf"); (33, "33_seitou.pdf")].

(** [ANSWER_PDF_MAP[examNumber]]: [undefined] for a number not a key. *)
Fixpoint answer_pdf_lookup (m : list (nat * string)) (examNumber : nat) : option string :=
  match m with
  | [] => None
  | (k, f) :: m' => if Nat.eqb k examNumber then Some f else answer_pdf_lookup m' examNumber
  end.

Definition PDF_BASE_PATHS_questions : string := "/pdfs/".
Definition PDF_BASE_PATHS_answers : string := "/answers/".

Definition getAvailableExamNumbers : list nat := map examNumber EXAM_CONFIGS.

Definition getAllExamNumbers : list nat := map examNumber EXAM_CONFIGS.

Definition getExamConfig (examNumber' : nat) : option ExamConfig :=
  find (fun config => Nat.eqb (examNumber config) examNumber') EXAM_CONFIGS.

Definition getQuestionPdfPath (examNumber' : nat) (session : SessionType) : option string :=
  match getExamConfig examNumber' with
  | None => None
  | Some config => Some (PDF_BASE_PATHS_questions ++ questionPdf (sessions config session))
  end.

Definition getBessatsuPdfPath (examNumber' : nat) (session : SessionType) : option string :=
  match getExamConfig examNumber' with
  | None => None
  | Some config =>
      match bessatsuPdf (sessions config session) with
      | Some f => if Js.truthy f then Some (PDF_BASE_PATHS_questions ++ f) else None
      | None => None
      end
  end.

Definition getAnswerPdfPath (examNumber' : nat) : option string :=
  match answer_pdf_lookup ANSWER_PDF_MAP examNumber' with
  | Some filename => if Js.truthy filename then Some (PDF_BASE_PATHS_answers ++ filename) else None
  | None => None
  end.

(** [config?.hasAnswerPdf ?? false] *)
Definition isExamAvailable (examNumber' : nat) : bool :=
  match getExamConfig examNumber' with Some config => hasAnswerPdf config | None => false end.

(** A session's question PDF, then its supplement PDF when set. *)
Definition session_filenames (c : SessionPdfConfig) : list string :=
  (questionPdf c ::
   match bessatsuPdf c with Some f => if Js.truthy f then [f] else [] | None => [] end)%list.

Definition getAllPdfFilenames : list string :=
  flat_map (fun config => (session_filenames (sessions_gozen config) ++
                           session_filenames (sessions_gogo config))%list) EXAM_CONFIGS.

End PdfConfig.

(** The environment of one request under the repository's configuration:
    the exam year and the three PDF paths come from [config/pdfConfig];
    the network responses are free. *)
Definition config_world (examNumber : nat) (session : SessionType)
    (head : nat -> bool) (get : nat -> JsonResp) (pdf : string -> PdfResp)
    (supplements : list Supplement) : World :=
  mkWorld head get
    (option_map PdfConfig.year (PdfConfig.getExamConfig examNumber))
    (PdfConfig.getAnswerPdfPath examNumber)
    (PdfConfig.getQuestionPdfPath examNumber session)
    (PdfConfig.getBessatsuPdfPath examNumber session)
    pdf supplements.

(* ------------------------------------------------------------------ *)
(** ** The page-image cache of [src/services/bessatsuRenderer.ts] *)

(** A JavaScript [Map<string, string>]: entries in insertion order; [set]
    on a present key replaces its value in place. *)
Module JsMap.

Definition t := list (string * string).

Fixpoint get (m : t) (k : string) : option string :=
  match m with
  | [] => None
  | (k', v) :: m' => if String.eqb k' k then Some v else get m' k
  end.

Fixpoint set (m : t) (k v : string) : t :=
  match m with
  | [] => [(k, v)]
  | (k', v') :: m' => if String.eqb k' k then (k, v) :: m' else (k', v') :: set m' k v
  end.

Definition delete (m : t) (k : string) : t :=
  filter (fun p => negb (String.eqb (fst p) k)) m.

Definition keys (m : t) : list string := map fst m.

(** [Map<number, string>] *)
Fixpoint nset (m : list (nat * string)) (k : nat) (v : string) : list (nat * string) :=
  match m with
  | [] => [(k, v)]
  | (k', v') :: m' => if Nat.eqb k' k then (k, v) :: m' else (k', v') :: nset m' k v
  end.

End JsMap.

(** What [fetch(pdfPath)] followed by [response.blob()] gives. *)
Inductive FetchResp (Blob : Type) :=
| FetchThrows
| FetchNotOk
| FetchBlob (b : Blob).
Arguments FetchThrows {Blob}.
Arguments FetchNotOk {Blob}.
Arguments FetchBlob {Blob} b.

(** The fetches and page renderings the renderer performs. *)
Inductive REvent :=
| RFetch (path : string)
| RRender (page : nat).

(** [if (!pdfPath)] on a [string | null] *)
Definition path_of (o : option string) : option string :=
  match o with Some p => if Js.truthy p then Some p else None | None => None end.

(** [`${examNumber}-${session}-${pageNumber}-${scale}`]; the scale is
    taken as its printed form. *)
Definition cacheKey (examNumber : nat) (session : SessionType) (pageNumber : nat)
    (scale : string) : string :=
  Js.of_nat examNumber ++ "-" ++ session_str session ++ "-" ++ Js.of_nat pageNumber ++
  "-" ++ scale.

Section Renderer.

(** pdf.js and the canvas: whether [import('pdfjs-dist')] resolves, the page
    count of a document ([None] when [getDocument] rejects), and the drawing
    of one page to a data URL ([None] when it throws). *)
Variable Blob : Type.
Variable fetch : string -> FetchResp Blob.
Variable pdfjsLoads : bool.
Variable numPages : Blob -> option nat.
Variable drawPage : Blob -> nat -> string -> option string.

(** [getPdfPageCount]: [None] when it throws. *)
Definition getPdfPageCount (blob : Blob) : option nat :=
  if pdfjsLoads then numPages blob else None.

(** [renderPdfPageToImage]: [None] when it throws (the import is outside
    its [try]), [Some None] for its [null]. *)
Definition renderPdfPageToImage (blob : Blob) (pageNumber : nat) (scale : string)
  : option (option string) :=
  if pdfjsLoads then
    Some (match numPages blob with
          | None => None
          | Some n =>
              if Nat.ltb pageNumber 1 || Nat.ltb n pageNumber then None
              else drawPage blob pageNumber scale
          end)
  else None.

(** [renderBessatsuPage]: events, result and the cache afterwards.  The
    [has(key)] / [get(key)!] pair is read as one lookup. *)
Definition renderBessatsuPage (imageCache : JsMap.t) (examNumber : nat)
    (session : SessionType) (pageNumber : nat) (scale : string)
  : list REvent * option string * JsMap.t :=
  let key := cacheKey examNumber session pageNumber scale in
  match JsMap.get imageCache key with
  | Some v => ([], Some v, imageCache)
  | None =>
      match path_of (PdfConfig.getBessatsuPdfPath examNumber session) with
      | None => ([], None, imageCache)
      | Some pdfPath =>
          match fetch pdfPath with
          | FetchBlob blob =>
              match renderPdfPageToImage blob pageNumber scale with
              | None => ([RFetch pdfPath; RRender pageNumber], None, imageCache)
              | Some imageDataUrl =>
                  ([RFetch pdfPath; RRender pageNumber], imageDataUrl,
                   match imageDataUrl with
                   | Some u => if Js.truthy u then JsMap.set imageCache key u else imageCache
                   | None => imageCache
                   end)
              end
          | _ => ([RFetch pdfPath], None, imageCache)
          end
      end
  end.

(** The page loop of [renderAllBessatsuPages]; a throwing rendering ends
    the loop, and the [catch] returns what was collected. *)
Fixpoint render_pages (blob : Blob) (examNumber : nat) (session : SessionType)
    (scale : string) (pages : list nat)
    (st : list REvent * list (nat * string) * JsMap.t)
  : list REvent * list (nat * string) * JsMap.t :=
  match pages with
  | [] => st
  | page :: rest =>
      let '(ev, result, imageCache) := st in
      let key := cacheKey examNumber session page scale in
      match JsMap.get imageCache key with
      | Some v => render_pages blob examNumber session scale rest
                    (ev, JsMap.nset result page v, imageCache)
      | None =>
          let ev' := (ev ++ [RRender page])%list in
          match renderPdfPageToImage blob page scale with
          | None => (ev', result, imageCache)
          | Some (Some u) =>
              if Js.truthy u
              then render_pages blob examNumber session scale rest
                     (ev', JsMap.nset result page u, JsMap.set imageCache key u)
              else render_pages blob examNumber session scale rest (ev', result, imageCache)
          | Some None => render_pages blob examNumber session scale rest (ev', result, imageCache)
          end
      end
  end.

Definition renderAllBessatsuPages (imageCache : JsMap.t) (examNumber : nat)
    (session : SessionType) (scale : string)
  : list REvent * list (nat * string) * JsMap.t :=
  match path_of (PdfConfig.getBessatsuPdfPath examNumber session) with
  | None => ([], [], imageCache)
  | Some pdfPath =>
      match fetch pdfPath with
      | FetchBlob blob =>
          match getPdfPageCount blob with
          | None => ([RFetch pdfPath], [], imageCache)
          | Some totalPages =>
              render_pages blob examNumber session scale (seq 1 totalPages)
                ([RFetch pdfPath], [], imageCache)
          end
      | _ => ([RFetch pdfPath], [], imageCache)
      end
  end.

End Renderer.

(** [clearBessatsuCacheForExam]: collect the keys, then delete them. *)
Definition clearBessatsuCacheForExam (imageCache : JsMap.t) (examNumber : nat)
    (session : option SessionType) : JsMap.t :=
  let keysToDelete :=
    filter (fun key =>
              String.prefix (Js.of_nat examNumber ++ "-") key &&
              match session with
              | None => true
              | Some s => String.prefix (Js.of_nat examNumber ++ "-" ++ session_str s ++ "-") key
              end)
           (JsMap.keys imageCache) in
  fold_left JsMap.delete keysToDelete imageCache.

(* ------------------------------------------------------------------ *)
(** ** Loading several sessions *)

(** [q.category && categories.includes(q.category)] *)
Definition in_categories (categories : list CategoryConfig.CategoryId) (q : Question) : bool :=
  match category q with
  | Some c => Js.truthy c &&
              existsb (fun k => String.eqb (CategoryConfig.category_str k) c) categories
  | None => false
  end.

Section Batch.

Variable parseAnswerText : string -> nat -> list AnswerEntry.
Variable parseQuestionText : string -> string.
Variable extractChoices : string -> list Choice.
Variable locateSection : string -> nat -> string.
Variable flexibleChoices1 : string -> list Choice.
Variable flexibleChoices2 : string -> list Choice.
Variable detectSupplementReferences : string -> list SupplementReference.
Variable linkSupplementReferences :
  list SupplementReference -> nat -> SessionType -> list Supplement ->
  list SupplementReference.
Variable getCategoryByQuestionNumber : nat -> SessionType -> string.

(** The environment of each (exam number, session) request. *)
Variable ws : nat -> SessionType -> World.

(** The loops of [loadQuestionsWithFilters] (the second
    [jsonQuestionLoader] copy): [allQuestions.push(...questions)]. *)
Fixpoint load_sessions (examNumber : nat) (sessions : list SessionType)
    (allQuestions : list Question) : M (list Question) :=
  match sessions with
  | [] => ret allQuestions
  | s :: rest =>
      questions <- loadQuestionsFromJson parseAnswerText getCategoryByQuestionNumber
                     (ws examNumber s) 0 examNumber s ;;
      load_sessions examNumber rest (allQuestions ++ questions)%list
  end.

Fixpoint load_exams (examNumbers : list nat) (sessions : list SessionType)
    (allQuestions : list Question) : M (list Question) :=
  match examNumbers with
  | [] => ret allQuestions
  | e :: rest =>
      acc <- load_sessions e sessions allQuestions ;;
      load_exams rest sessions acc
  end.

(** [categories] is [undefined] for [None]. *)
Definition loadQuestionsWithFilters (examNumbers : list nat) (sessions : list SessionType)
    (categories : option (list CategoryConfig.CategoryId)) : M (list Question) :=
  allQuestions <- load_exams examNumbers sessions [] ;;
  match categories with
  | None | Some [] => ret allQuestions
  | Some cs => ret (filter (in_categories cs) allQuestions)
  end.

Definition gen_session (examNumber : nat) (session : SessionType) : M (list Question) :=
  generateQuestionsFromAnswerPdf parseAnswerText parseQuestionText extractChoices
    locateSection flexibleChoices1 flexibleChoices2 detectSupplementReferences
    linkSupplementReferences getCategoryByQuestionNumber (ws examNumber session)
    examNumber session.

(** The loops of [generateAllQuestions]: a failing session is caught and
    logged. *)
Fixpoint generate_sessions (examNumber : nat) (sessions : list SessionType)
    (allQuestions : list Question) : M (list Question) :=
  match sessions with
  | [] => ret allQuestions
  | s :: rest =>
      r <- attempt (gen_session examNumber s) ;;
      generate_sessions examNumber rest
        (match r with inl questions => (allQuestions ++ questions)%list
                    | inr _ => allQuestions end)
  end.

Fixpoint generate_exams (examNumbers : list nat) (allQuestions : list Question)
  : M (list Question) :=
  match examNumbers with
  | [] => ret allQuestions
  | e :: rest =>
      acc <- generate_sessions e [gozen; gogo] allQuestions ;;
      generate_exams rest acc
  end.

Definition generateAllQuestions : M (list Question) :=
  generate_exams PdfConfig.getAvailableExamNumbers [].

(** The loops of [loadQuestions] in [Home.tsx]'s mount effect:
    [if (questions.length > 0) allQuestions = allQuestions.concat(questions)]. *)
Fixpoint home_sessions (examNumber : nat) (sessions : list SessionType)
    (allQuestions : list Question) : M (list Question) :=
  match sessions with
  | [] => ret allQuestions
  | s :: rest =>
      r <- attempt (gen_session examNumber s) ;;
      home_sessions examNumber rest
        (match r with
         | inl questions => if Nat.ltb 0 (length questions)
                            then (allQuestions ++ questions)%list else allQuestions
         | inr _ => allQuestions
         end)
  end.

Fixpoint home_exams (examNumbers : list nat) (allQuestions : list Question)
  : M (list Question) :=
  match examNumbers with
  | [] => ret allQuestions
  | e :: rest =>
      acc <- home_sessions e [gozen; gogo] allQuestions ;;
      home_exams rest acc
  end.

Definition home_loadQuestions : M (list Question) :=
  home_exams PdfConfig.getAvailableExamNumbers [].

End Batch.

(* ------------------------------------------------------------------ *)
(** ** [src/components/QuestionSession.tsx] (the second component copy) *)

Module QuestionSession.

Inductive AnswerStatus := answered | skipped | timeout | quit.

(** [Answer]; dates as time stamps. *)
Record Answer := mkAnswer {
  questionId : string;
  selectedAnswer : option string;
  isCorrect : bool;
  status : AnswerStatus;
  timeSpent : nat;
  answeredAt : option nat;
  usedHint : option bool
}.

(** [for (let i = currentIndex; i < questions.length; i++)
    unansweredAnswers.push({...})] *)
Definition unansweredAnswers (questions : list Question) (currentIndex : nat)
    (st : AnswerStatus) : list Answer :=
  map (fun q => mkAnswer (qid q) None false st 0 None None) (skipn currentIndex questions).

(** The answers [handleTimeUp] hands to [onComplete]. *)
Definition handleTimeUp (answersRef : list Answer) (questions : list Question)
    (currentIndex : nat) : list Answer :=
  (answersRef ++ unansweredAnswers questions currentIndex timeout)%list.

(** The arguments [handleQuit] hands to [onComplete]. *)
Definition handleQuit (answersRef : list Answer) (questions : list Question)
    (currentIndex : nat) : list Answer * nat :=
  ((answersRef ++ unansweredAnswers questions currentIndex quit)%list, currentIndex + 1).

(** [s.padStart(targetLength, c)] for a one-character pad string. *)
Definition padStart (targetLength : nat) (c : ascii) (s : string) : string :=
  string_of_list_ascii (repeat c (targetLength - Js.length s)) ++ s.

Definition formatTime (seconds : nat) : string :=
  let hours := seconds / 3600 in
  let mins := (seconds mod 3600) / 60 in
  let secs := seconds mod 60 in
  if Nat.ltb 0 hours
  then Js.of_nat hours ++ ":" ++ padStart 2 "0" (Js.of_nat mins) ++ ":" ++
       padStart 2 "0" (Js.of_nat secs)
  else Js.of_nat mins ++ ":" ++ padStart 2 "0" (Js.of_nat secs).

End QuestionSession.

(* ------------------------------------------------------------------ *)
(** ** [src/components/Home.tsx] *)

Module Home.

Inductive Mode := learning | test | exam.

Definition EXAM_TIME_LIMIT : nat := 150 * 60.

Definition toggleCategory (selectedCategories : list CategoryConfig.CategoryId)
    (categoryId : CategoryConfig.CategoryId) : list CategoryConfig.CategoryId :=
  if existsb (CategoryConfig.cat_eqb categoryId) selectedCategories
  then filter (fun c => negb (CategoryConfig.cat_eqb c categoryId)) selectedCategories
  else (selectedCategories ++ [categoryId])%list.

Definition toggleExamNumber (selectedExamNumbers : list nat) (examNumber' : nat) : list nat :=
  if existsb (Nat.eqb examNumber') selectedExamNumbers
  then filter (fun n => negb (Nat.eqb n examNumber')) selectedExamNumbers
  else (selectedExamNumbers ++ [examNumber'])%list.

(** [allLoadedQuestions.filter(q => examNumbers.includes(q.examNumber))] *)
Definition of_exams (examNumbers : list nat) (qs : list Question) : list Question :=
  filter (fun q => existsb (Nat.eqb (examNumber q)) examNumbers) qs.

Definition filteredQuestionCount (allLoadedQuestions : list Question)
    (selectedExamNumbers : list nat) (selectedCategories : list CategoryConfig.CategoryId)
  : nat :=
  if Nat.eqb (length selectedExamNumbers) 0 then 0 else
  let filtered := of_exams selectedExamNumbers allLoadedQuestions in
  if Nat.ltb 0 (length selectedCategories)
  then length (filter (in_categories selectedCategories) filtered)
  else 0.

(** What starting a session does: an alert, an error shown on the page,
    or the questions handed to [onStartSession] with the time limit. *)
Inductive Outcome :=
| Alert (msg : string)
| LoadError (msg : string)
| Start (questions : list Question) (timeLimit : option nat).

(** [sort((a, b) => a.questionNumber - b.questionNumber)]: a stable sort,
    as [Array.prototype.sort] is. *)
Fixpoint insert_by_number (q : Question) (l : list Question) : list Question :=
  match l with
  | [] => [q]
  | x :: l' => if Nat.leb (questionNumber q) (questionNumber x) then q :: l
               else x :: insert_by_number q l'
  end.

Definition sort_by_number (l : list Question) : list Question :=
  fold_right insert_by_number [] l.

Section Start.

(** The question store ([getQuestions], a thrown error as [inr]), the
    random reordering [sort(() => Math.random() - 0.5)] and the choice
    shuffle [shuffleAllChoices], none of them in the sources. *)
Variable getQuestions : list nat -> list SessionType -> list Question + string.
Variable shuffleOrder : list Question -> list Question.
Variable shuffleAllChoices : list Question -> list Question.

Definition startSession (allLoadedQuestions : list Question) (mode : Mode) (count : nat)
    (categories : list CategoryConfig.CategoryId) (examNumbers : list nat) : Outcome :=
  if Nat.eqb (length examNumbers) 0 then Alert "回次を選択してください" else
  if Nat.eqb (length categories) 0 then Alert "科目を選択してください" else
  let filtered := filter (in_categories categories) (of_exams examNumbers allLoadedQuestions) in
  let pool :=
    match filtered with
    | [] => match getQuestions examNumbers [gozen; gogo] with
            | inl dbQuestions => inl (filter (in_categories categories) dbQuestions)
            | inr e => inr e
            end
    | _ => inl filtered
    end in
  match pool with
  | inr e => LoadError ("問題の読み込みに失敗しました: " ++ e)
  | inl [] => LoadError "問題が見つかりませんでした。"
  | inl filteredQuestions =>
      let shuffled := shuffleOrder filteredQuestions in
      let selected := firstn (Nat.min count (length shuffled)) shuffled in
      let finalQuestions := shuffleAllChoices selected in
      Start finalQuestions
        (match mode with test => Some (length finalQuestions * 75) | _ => None end)
  end.

Definition startExamMode (allLoadedQuestions : list Question)
    (examModeExamNumber : option nat) (session' : SessionType)
    (examModeShuffle examModeShuffleChoices : bool) : Outcome :=
  match examModeExamNumber with
  | None => Alert "回次を選択してください"
  | Some e =>
      let examQuestions :=
        filter (fun q => Nat.eqb (examNumber q) e && session_eqb (session q) session')
               allLoadedQuestions in
      let pool :=
        match examQuestions with
        | [] => getQuestions [e] [session']
        | _ => inl examQuestions
        end in
      match pool with
      | inr err => LoadError ("問題の読み込みに失敗しました: " ++ err)
      | inl [] =>
          LoadError ("第" ++ Js.of_nat e ++ "回 " ++
                     (match session' with gozen => "午前" | gogo => "午後" end) ++
                     "の問題が見つかりませんでした。")
      | inl qs =>
          let finalQuestions := sort_by_number qs in
          let finalQuestions := if examModeShuffle then shuffleOrder finalQuestions
                                else finalQuestions in
          let finalQuestions := if examModeShuffleChoices then shuffleAllChoices finalQuestions
                                else finalQuestions in
          Start finalQuestions (Some EXAM_TIME_LIMIT)
  end
  end.

End Start.

End Home.

(* ------------------------------------------------------------------ *)
(** ** Auxiliary notions used by the properties *)

(** The last question number the category ranges of a session reach. *)
Definition session_last (s : SessionType) : nat :=
  match s with gozen => 128 | gogo => 122 end.

(** A character of [0-9]; a string of such characters. *)
Definition is_digit (c : ascii) : bool :=
  Nat.leb 48 (nat_of_ascii c) && Nat.leb (nat_of_ascii c) 57.

Fixpoint all_digits (s : string) : bool :=
  match s with
  | EmptyString => true
  | String c s' => is_digit c && all_digits s'
  end.

(** [n.toString().padStart(2, '0')] as [formatTime] writes it. *)
Definition pad2 (n : nat) : string := QuestionSession.padStart 2 "0" (Js.of_nat n).

(** The list a computation returned, [[]] when it threw. *)
Definition ok_or_nil {A} (r : Res (list A)) : list A :=
  match r with Ok l => l | Err _ => [] end.

(** The common shape of [toggleCategory] and [toggleExamNumber]. *)
Definition toggle {A} (eqb : A -> A -> bool) (l : list A) (x : A) : list A :=
  if existsb (eqb x) l then filter (fun y => negb (eqb y x)) l else (l ++ [x])%list.

(** The order [a.questionNumber - b.questionNumber] sorts by. *)
Definition by_number (a b : Question) : Prop := questionNumber a <= questionNumber b.

(** The loop invariant of [render_pages], relative to the cache [c0] the
    loop started from: every collected page is at least 1 and cached with
    its collected image; a page is rendered only if [c0] did not have it;
    nothing [c0] held is lost. *)
Definition pages_inv (c0 : JsMap.t) (e : nat) (s : SessionType) (scale : string)
    (st : list REvent * list (nat * string) * JsMap.t) : Prop :=
  let '(ev, result, cache) := st in
  (forall p u, In (p, u) result -> 1 <= p /\ JsMap.get cache (cacheKey e s p scale) = Some u) /\
  (forall p, In (RRender p) ev -> JsMap.get c0 (cacheKey e s p scale) = None) /\
  (forall k v, JsMap.get c0 k = Some v -> JsMap.get cache k = Some v).

(** A renderer environment: every fetch succeeds, the document has two
    pages, and each drawing gives a data URL. *)
Definition demo_fetch (_ : string) : FetchResp unit := FetchBlob tt.
Definition demo_numPages (_ : unit) : option nat := Some 2.
Definition demo_draw (_ : unit) (page : nat) (_ : string) : option string :=
  Some ("data:image/png;base64,p" ++ Js.of_nat page).

(** A request under the repository's configuration in which no JSON file
    and no PDF exists. *)
Definition demo_world (e : nat) (s : SessionType) : World :=
  config_world e s (fun _ => false) (fun _ => JsonNotOk) (fun _ => PdfMissing) [].

(** Two questions of exam 30, morning session, in reverse number order. *)
Definition exam_q (n : nat) : Question :=
  mkQuestion ("30-gozen-" ++ Js.of_nat n) 2022 30 gozen n "q"
    [mkChoice "a" "X"; mkChoice "b" "Y"] "a" None "" "" false []
    (Some (CategoryConfig.category_str (CategoryConfig.getCategoryByQuestionNumber n gozen)))
    None false.

Definition exam_pool : list Question := [exam_q 45; exam_q 3].

(* ================================================================== *)
(** * Properties *)

(** ** Monad laws used below *)

Lemma bind_ok {A B} (m : M A) (f : A -> M B) (a : A) :
  snd m = Ok a -> bind m f = ((fst m ++ fst (f a))%list, snd (f a)).
Proof. destruct m as [l r]; simpl; intros ->; destruct (f a); reflexivity. Qed.

Lemma bind_err {A B} (m : M A) (f : A -> M B) (e : string) :
  snd m = Err e -> bind m f = (fst m, Err e).
Proof. destruct m as [l r]; simpl; intros ->; reflexivity. Qed.

Lemma catch_ok {A} (m : M A) (h : string -> M A) (a : A) :
  snd m = Ok a -> catch m h = m.
Proof. destruct m as [l r]; simpl; intros ->; reflexivity. Qed.

Lemma catch_err {A} (m : M A) (h : string -> M A) (e : string) :
  snd m = Err e -> catch m h = ((fst m ++ fst (h e))%list, snd (h e)).
Proof. destruct m as [l r]; simpl; intros ->; destruct (h e); reflexivity. Qed.

Lemma attempt_ok {A} (m : M A) (a : A) :
  snd m = Ok a -> attempt m = (fst m, Ok (inl a)).
Proof. destruct m as [l r]; simpl; intros ->; reflexivity. Qed.

Lemma attempt_err {A} (m : M A) (e : string) :
  snd m = Err e -> attempt m = (fst m, Ok (inr e)).
Proof. destruct m as [l r]; simpl; intros ->; reflexivity. Qed.

(** ** C10: grading *)

(** C10: [handleAnswer] marks an answer correct exactly when the
    selected label equals, case-insensitively, some entry of a non-empty
    [correctAnswers], and otherwise when it equals [correctAnswer]
    case-insensitively; with a non-empty [correctAnswers] the single
    [correctAnswer] plays no part.  Case-insensitive equality is equality
    after [toLowerCase], as the code compares; it holds for any
    [toLowerCase] the runtime provides. *)
Theorem handleAnswer_isCorrect_spec (toLowerCase : string -> string) (q : Question)
    (selectedAnswer : string) :
  isCorrect toLowerCase q selectedAnswer = true <->
  match correctAnswers q with
  | Some ((_ :: _) as l) =>
      exists ca, In ca l /\ toLowerCase ca = toLowerCase selectedAnswer
  | _ => toLowerCase (correctAnswer q) = toLowerCase selectedAnswer
  end.
Proof.
  unfold isCorrect.
  destruct (correctAnswers q) as [[|x rest]|]; simpl;
    rewrite ?orb_false_r, ?String.eqb_eq; try reflexivity.
  rewrite orb_true_iff, String.eqb_eq, existsb_exists.
  split.
  - intros [H | [ca [Hin Heq]]].
    + exists x. auto.
    + exists ca. apply String.eqb_eq in Heq. auto.
  - intros [ca [[<- | Hin] Heq]]; [left; exact Heq|].
    right. exists ca. rewrite String.eqb_eq. auto.
Qed.

(** ** Lemmas on the JSON loader *)

Lemma loadCorrectAnswers_ok pa w e s :
  exists m, snd (loadCorrectAnswers pa w e s) = Ok m.
Proof.
  unfold loadCorrectAnswers.
  destruct (w_answer_path w) as [p|]; [|eexists; reflexivity].
  destruct (w_pdf w p); eexists; reflexivity.
Qed.

Lemma decide_answers_split item m :
  decide_answers item m =
  match in_file_answers item with
  | Some r => r
  | None => pdf_fallback_answers m (QuestionData.questionNumber item)
  end.
Proof.
  unfold decide_answers, in_file_answers, pdf_fallback_answers.
  destruct (QuestionData.correctAnswers item) as [[|x rest]|];
    destruct (QuestionData.correctAnswer item) as [s|];
    try destruct (Js.truthy s); reflexivity.
Qed.

(** C2: loading a structured file holding the one question with choices
    X, Y, Z, W and [correctAnswer "b"] yields exactly one question with 4
    choices, [correctAnswer = "b"] and no [correctAnswers]; with
    [correctAnswers ["a"; "c"]] instead it yields [correctAnswer = "a"]
    and [correctAnswers = ["a"; "c"]] -- whatever the answer-key PDF
    holds.  In general the in-file answer fields decide, and the answer
    map is read only when the record has no answer of its own. *)
Theorem json_load_scenarios :
  (forall pa gc w k e s y sess qt,
     exists q,
       snd (loadQuestionsFromJson pa gc (with_json_file w (scenario_file e y sess
              (scenario_item qt (Some "b") None))) k e s) = Ok [q] /\
       length (choices q) = 4 /\ correctAnswer q = "b" /\ correctAnswers q = None) /\
  (forall pa gc w k e s y sess qt,
     exists q,
       snd (loadQuestionsFromJson pa gc (with_json_file w (scenario_file e y sess
              (scenario_item qt None (Some ["a"; "c"])))) k e s) = Ok [q] /\
       length (choices q) = 4 /\ correctAnswer q = "a" /\
       correctAnswers q = Some ["a"; "c"]) /\
  (forall item m,
     decide_answers item m =
     match in_file_answers item with
     | Some r => r
     | None => pdf_fallback_answers m (QuestionData.questionNumber item)
     end) /\
  (forall item,
     in_file_answers item = None <->
     (QuestionData.correctAnswers item = None \/ QuestionData.correctAnswers item = Some []) /\
     (QuestionData.correctAnswer item = None \/ QuestionData.correctAnswer item = Some "")).
Proof.
  split; [|split; [|split]].
  - intros pa gc w k e s y sess qt.
    destruct (loadCorrectAnswers_ok pa (with_json_file w (scenario_file e y sess
                (scenario_item qt (Some "b") None))) e s) as [m Hm].
    eexists. unfold loadQuestionsFromJson.
    rewrite (bind_ok _ _ tt) by reflexivity. simpl.
    rewrite (bind_ok _ _ m) by exact Hm. simpl.
    split; [reflexivity|]. simpl. auto.
  - intros pa gc w k e s y sess qt.
    destruct (loadCorrectAnswers_ok pa (with_json_file w (scenario_file e y sess
                (scenario_item qt None (Some ["a"; "c"])))) e s) as [m Hm].
    eexists. unfold loadQuestionsFromJson.
    rewrite (bind_ok _ _ tt) by reflexivity. simpl.
    rewrite (bind_ok _ _ m) by exact Hm. simpl.
    split; [reflexivity|]. simpl. auto.
  - exact decide_answers_split.
  - intros item. unfold in_file_answers.
    destruct (QuestionData.correctAnswers item) as [[|x rest]|];
      destruct (QuestionData.correctAnswer item) as [[|c s]|]; simpl;
      split; intros H; try discriminate;
      repeat match goal with
             | H : _ /\ _ |- _ => destruct H
             | H : _ \/ _ |- _ => destruct H
             end;
      try discriminate; auto.
Qed.

(** ** C5: multi-answer consistency *)

Lemma answer_pair_first l0 a l :
  (Js.first l0, if Nat.ltb 1 (length l0) then Some l0 else None) = (a, Some l) ->
  1 < length l /\ a = Js.first l.
Proof.
  destruct (Nat.ltb 1 (length l0)) eqn:E; intros H; inversion H; subst.
  split; [apply Nat.ltb_lt; exact E | reflexivity].
Qed.

Lemma decide_answers_multi item m a l :
  decide_answers item m = (a, Some l) -> 1 < length l /\ a = Js.first l.
Proof.
  rewrite decide_answers_split. unfold in_file_answers, pdf_fallback_answers.
  destruct (QuestionData.correctAnswers item) as [[|x rest]|];
    [| apply (answer_pair_first (x :: rest)) |];
    destruct (QuestionData.correctAnswer item) as [s|];
    try destruct (Js.truthy s); try discriminate; apply answer_pair_first.
Qed.

(** C5 (counterexample): a structured record with [correctAnswers
    ["a"; "e"]] and choices a..d is loaded as it is: the question keeps
    [correctAnswers = ["a"; "e"]] although no choice is labelled e. *)
Lemma multi_answer_label_outside_choices :
  let q := convertToQuestion (fun _ _ => "") item_multi_e 30 2018 gozen [] in
  correctAnswers q = Some ["a"; "e"] /\
  existsb (fun l => String.eqb (Js.toLowerCase l) (Js.toLowerCase "e"))
          (map label (choices q)) = false.
Proof. vm_compute. split; reflexivity. Qed.

(** C5 (amended): a structured-source question with a [correctAnswers]
    list has at least two entries there and [correctAnswer] is the first;
    a text-path question has [correctAnswer] equal to the first entry of
    [correctAnswers] whenever that entry is non-empty.  Nothing checks the
    entries against the choice labels. *)
Theorem multi_answer_primary_first :
  (forall gc item e y s m l,
     correctAnswers (convertToQuestion gc item e y s m) = Some l ->
     1 < length l /\ correctAnswer (convertToQuestion gc item e y s m) = Js.first l) /\
  (forall pq ec ls f1 f2 dsr lsr e y s qp supps qt a l,
     correctAnswers (build_question pq ec ls f1 f2 dsr lsr e y s qp supps qt a) = Some l ->
     Js.truthy (Js.first l) = true ->
     correctAnswer (build_question pq ec ls f1 f2 dsr lsr e y s qp supps qt a) = Js.first l).
Proof.
  split.
  - intros gc item e y s m l H. unfold convertToQuestion in *; simpl in *.
    apply (decide_answers_multi item m).
    destruct (decide_answers item m) as [a o]; simpl in *; subst; reflexivity.
  - intros pq ec ls f1 f2 dsr lsr e y s qp supps qt a l H Ht.
    unfold build_question in *; simpl in *. inversion H; subst.
    unfold Js.or_else. rewrite Ht. reflexivity.
Qed.

(** A witness for [multi_answer_primary_first]. *)
Lemma multi_answer_primary_first_witness :
  1 < length ["a"; "e"] /\
  correctAnswer (convertToQuestion (fun _ _ => "") item_multi_e 30 2018 gozen []) = "a".
Proof.
  apply (proj1 multi_answer_primary_first (fun _ _ => "") item_multi_e 30 2018 gozen []).
  vm_compute. reflexivity.
Defined.

(** ** C7: choice sets *)

Lemma in_labels_filter (f : Choice -> bool) l x :
  In x (map label (filter f l)) -> In x (map label l).
Proof.
  induction l as [|c l IH]; simpl; [tauto|].
  destruct (f c); simpl; intuition.
Qed.

Lemma nodup_labels_filter (f : Choice -> bool) l :
  NoDup (map label l) -> NoDup (map label (filter f l)).
Proof.
  induction l as [|c l IH]; simpl; [auto|].
  intros Hnd. inversion Hnd; subst.
  destruct (f c); simpl; [|auto].
  constructor; [|auto].
  intros Hin. apply in_labels_filter in Hin. contradiction.
Qed.

Lemma length_filter_le (f : Choice -> bool) l : length (filter f l) <= length l.
Proof. induction l as [|c l IH]; simpl; [auto|]. destruct (f c); simpl; lia. Qed.

Lemma build_choices_wf c :
  let cs := build_choices c in
  length cs <= 5 /\ NoDup (map label cs) /\
  (forall l, In l (map label cs) -> In l ["a"; "b"; "c"; "d"; "e"]) /\
  Forall (fun ch => text ch <> "") cs.
Proof.
  unfold build_choices.
  set (base := [mkChoice "a" (trimmed_choice (QuestionData.ch_a c));
                mkChoice "b" (trimmed_choice (QuestionData.ch_b c));
                mkChoice "c" (trimmed_choice (QuestionData.ch_c c));
                mkChoice "d" (trimmed_choice (QuestionData.ch_d c))]).
  set (f := fun ch : Choice => negb (String.eqb (text ch) "")).
  assert (Hgen : forall L, length L <= 5 -> NoDup (map label L) ->
            (forall l, In l (map label L) -> In l ["a"; "b"; "c"; "d"; "e"]) ->
            let cs := filter f L in
            length cs <= 5 /\ NoDup (map label cs) /\
            (forall l, In l (map label cs) -> In l ["a"; "b"; "c"; "d"; "e"]) /\
            Forall (fun ch => text ch <> "") cs).
  { intros L Hlen Hnd Hin cs. subst cs.
    split; [pose proof (length_filter_le f L); lia|].
    split; [apply nodup_labels_filter; exact Hnd|].
    split; [intros l Hl; apply Hin, (in_labels_filter f); exact Hl|].
    apply Forall_forall. intros ch Hch. apply filter_In in Hch as [_ Hf].
    unfold f in Hf. apply negb_true_iff, String.eqb_neq in Hf. exact Hf. }
  destruct (QuestionData.ch_e c) as [e|];
    [destruct (Js.truthy e && Js.truthy (Js.trim e))|];
    apply Hgen; simpl; try lia;
    try (repeat constructor; simpl; intuition discriminate);
    intros l Hl; intuition.
Qed.

(** C7 (counterexample): a structured record whose choices b..e are
    blank or missing is loaded with a single choice. *)
Lemma json_question_single_choice :
  length (choices (convertToQuestion (fun _ _ => "") item_blank_choices 30 2018 gozen [])) = 1.
Proof. vm_compute. reflexivity. Qed.

(** C7 (amended): a question loaded from the structured source has at
    most 5 choices, with unique labels drawn from a..e and non-empty
    text (possibly fewer than 2 choices); each placeholder choice set of
    the text path has the 4 labels a..d and non-empty text. *)
Theorem json_choices_well_formed :
  (forall gc item e y s m,
     let cs := choices (convertToQuestion gc item e y s m) in
     length cs <= 5 /\ NoDup (map label cs) /\
     (forall l, In l (map label cs) -> In l ["a"; "b"; "c"; "d"; "e"]) /\
     Forall (fun ch => text ch <> "") cs) /\
  Forall (fun t => let cs := placeholder t in
                   length cs = 4 /\ NoDup (map label cs) /\
                   map label cs = ["a"; "b"; "c"; "d"] /\
                   Forall (fun ch => text ch <> "") cs)
         [NOT_FOUND_QUESTION; NOT_FOUND_CHOICES].
Proof.
  split.
  - intros gc item e y s m. apply build_choices_wf.
  - repeat constructor; simpl; intuition discriminate.
Qed.

(** ** C8: supplement references *)

(** C8 (failing input): with no reference in the question text and two
    supplement images numbered 1 for question 1, the linker emits image
    number 1 twice: the set of known image numbers is taken once before
    the loop and never grows. *)
Theorem supplement_links_duplicate_image :
  map imageNumber
      (link_supplements (fun _ => []) (fun refs _ _ _ => refs)
                        30 gozen dup_supplements 1 "q") = ["1"; "1"].
Proof. vm_compute. reflexivity. Qed.

(** ** The orchestrator *)

Lemma in_fst_bind {A B} (m : M A) (f : A -> M B) x :
  In x (fst m) -> In x (fst (bind m f)).
Proof.
  destruct m as [l [a|e]]; simpl; [|auto].
  destruct (f a); simpl. intros; apply in_or_app; auto.
Qed.

Lemma in_fst_catch {A} (m : M A) (h : string -> M A) x :
  In x (fst m) -> In x (fst (catch m h)).
Proof.
  destruct m as [l [a|e]]; simpl; [auto|].
  destruct (h e); simpl. intros; apply in_or_app; auto.
Qed.

Lemma fst_attempt {A} (m : M A) : fst (attempt m) = fst m.
Proof. destruct m as [l [a|e]]; reflexivity. Qed.

Lemma json_attempt_ok pa gc w k e s :
  exists qs, snd (json_attempt pa gc w k e s) = Ok qs.
Proof.
  unfold json_attempt, checkJsonExists, loadQuestionsFromJson, loadCorrectAnswers.
  simpl. destruct (w_json_head w k); simpl; [|eexists; reflexivity].
  destruct (w_json_get w k); simpl; try (eexists; reflexivity).
  destruct (w_answer_path w) as [ap|]; simpl; [|eexists; reflexivity].
  destruct (w_pdf w ap); simpl; eexists; reflexivity.
Qed.

Lemma json_attempt_no_extract pa gc w k e s p :
  ~ In (EvExtract p) (fst (json_attempt pa gc w k e s)).
Proof.
  unfold json_attempt, checkJsonExists, loadQuestionsFromJson, loadCorrectAnswers.
  simpl. destruct (w_json_head w k); simpl; [|intuition discriminate].
  destruct (w_json_get w k); simpl; try intuition discriminate.
  destruct (w_answer_path w) as [ap|]; simpl; [|intuition discriminate].
  destruct (w_pdf w ap); simpl; intuition discriminate.
Qed.

Lemma extract_logs_first w p :
  exists l, fst (extractTextFromPDF w p) = EvExtract p :: l.
Proof.
  unfold extractTextFromPDF. rewrite (bind_ok _ _ tt) by reflexivity.
  simpl. eexists; reflexivity.
Qed.

Lemma trim_nonempty_truthy x : Js.length (Js.trim x) <> 0 -> Js.truthy x = true.
Proof. destruct x; [intros H; exfalso; apply H; reflexivity | reflexivity]. Qed.

Lemma extract_ok_nonempty w p t :
  snd (extractTextFromPDF w p) = Ok t ->
  Js.truthy t = true /\ Js.length (Js.trim t) <> 0.
Proof.
  unfold extractTextFromPDF. rewrite (bind_ok _ _ tt) by reflexivity. simpl.
  destruct (w_pdf w p) as [| |m|[|pg pgs]]; simpl; try discriminate.
  match goal with |- context [if ?c then _ else _] => destruct c eqn:E end;
    simpl; [discriminate|].
  intros H; injection H as Ht. apply Nat.eqb_neq in E. rewrite <- Ht.
  split; [apply trim_nonempty_truthy; exact E | exact E].
Qed.

Lemma load_supplements_ok w :
  exists supps, snd (load_supplements w) = Ok supps /\
                forall p, ~ In (EvExtract p) (fst (load_supplements w)).
Proof.
  unfold load_supplements. destruct (w_bessatsu_path w) as [bp|].
  - simpl. destruct (w_pdf w bp); eexists; (split; [reflexivity|]);
      simpl; intuition discriminate.
  - eexists; split; [reflexivity|]. simpl; tauto.
Qed.

Section Orchestration.

Variable parseAnswerText : string -> nat -> list AnswerEntry.
Variable parseQuestionText : string -> string.
Variable extractChoices : string -> list Choice.
Variable locateSection : string -> nat -> string.
Variable flexibleChoices1 : string -> list Choice.
Variable flexibleChoices2 : string -> list Choice.
Variable detectSupplementReferences : string -> list SupplementReference.
Variable linkSupplementReferences :
  list SupplementReference -> nat -> SessionType -> list Supplement ->
  list SupplementReference.
Variable getCategoryByQuestionNumber : nat -> SessionType -> string.
Variable w : World.

Local Abbreviation gen :=
  (generateQuestionsFromAnswerPdf parseAnswerText parseQuestionText extractChoices
     locateSection flexibleChoices1 flexibleChoices2 detectSupplementReferences
     linkSupplementReferences getCategoryByQuestionNumber w).
Local Abbreviation tpath :=
  (text_path parseAnswerText parseQuestionText extractChoices
     locateSection flexibleChoices1 flexibleChoices2 detectSupplementReferences
     linkSupplementReferences getCategoryByQuestionNumber w).
Local Abbreviation jattempt := (json_attempt parseAnswerText getCategoryByQuestionNumber w).
Local Abbreviation sanswers := (session_answers parseAnswerText).

Lemma text_path_extracts_answer_key e y s ap qp supps :
  In (EvExtract ap) (fst (tpath e y s ap qp supps)).
Proof.
  unfold text_path. apply in_fst_bind, in_fst_catch.
  destruct (extract_logs_first w ap) as [l ->]. left; reflexivity.
Qed.

Lemma text_path_extracts_question e y s ap qp supps t :
  snd (extractTextFromPDF w ap) = Ok t -> sanswers e s t <> [] ->
  In (EvExtract qp) (fst (tpath e y s ap qp supps)).
Proof.
  intros Ht Hsa. unfold text_path.
  rewrite (bind_ok _ _ t) by (rewrite (catch_ok _ _ t Ht); exact Ht).
  apply in_or_app; right.
  destruct (extract_ok_nonempty w ap t Ht) as [Htr Hlen].
  rewrite Htr. apply Nat.eqb_neq in Hlen. rewrite Hlen. simpl.
  destruct (sanswers e s t) as [|a rest]; [contradiction|].
  apply in_fst_bind. rewrite fst_attempt.
  destruct (extract_logs_first w qp) as [l ->]. left; reflexivity.
Qed.

(** The generation after a JSON attempt that yielded nothing, a known
    exam configuration and both PDF paths. *)
Lemma gen_text_branch e s y ap qp :
  snd (jattempt 0 e s) = Ok [] ->
  w_exam_year w = Some y -> w_answer_path w = Some ap -> w_question_path w = Some qp ->
  exists supps,
    snd (load_supplements w) = Ok supps /\
    gen e s =
      ((fst (jattempt 0 e s) ++ fst (load_supplements w) ++
        fst (catch (tpath e y s ap qp supps)
               (fun msg => throw ("第" ++ Js.of_nat e ++ "回 " ++ session_str s ++
                                  "の問題生成に失敗: " ++ msg))))%list,
       snd (catch (tpath e y s ap qp supps)
               (fun msg => throw ("第" ++ Js.of_nat e ++ "回 " ++ session_str s ++
                                  "の問題生成に失敗: " ++ msg)))).
Proof.
  intros Hj Hy Ha Hq.
  destruct (load_supplements_ok w) as [supps [Hs _]].
  exists supps. split; [exact Hs|].
  unfold generateQuestionsFromAnswerPdf.
  rewrite (bind_ok _ _ []) by exact Hj. simpl.
  rewrite Hy, Ha, Hq.
  rewrite (bind_ok _ _ supps) by exact Hs. reflexivity.
Qed.

(** C1 (amended): if the first JSON attempt yields questions, they are
    returned and the orchestrator extracts no PDF text; if it yields
    none, a missing exam configuration gives an empty list without
    extraction, a missing answer-key or question PDF path fails without
    extraction, and otherwise the answer-key PDF's extraction is always
    attempted, followed by the question PDF's whenever the answer key was
    extracted and yielded answers for the session. *)
Theorem generation_fallback_order :
  forall e s,
  (forall qs, snd (jattempt 0 e s) = Ok qs -> qs <> [] ->
     snd (gen e s) = Ok qs /\ forall p, ~ In (EvExtract p) (fst (gen e s))) /\
  (snd (jattempt 0 e s) = Ok [] -> w_exam_year w = None ->
     snd (gen e s) = Ok [] /\ forall p, ~ In (EvExtract p) (fst (gen e s))) /\
  (forall y, snd (jattempt 0 e s) = Ok [] -> w_exam_year w = Some y ->
     (w_answer_path w = None \/ w_question_path w = None) ->
     (exists msg, snd (gen e s) = Err msg) /\ forall p, ~ In (EvExtract p) (fst (gen e s))) /\
  (forall y ap qp, snd (jattempt 0 e s) = Ok [] -> w_exam_year w = Some y ->
     w_answer_path w = Some ap -> w_question_path w = Some qp ->
     In (EvExtract ap) (fst (gen e s)) /\
     forall t, snd (extractTextFromPDF w ap) = Ok t -> sanswers e s t <> [] ->
       In (EvExtract qp) (fst (gen e s))).
Proof.
  intros e s. split; [|split; [|split]].
  - intros qs Hj Hne. unfold generateQuestionsFromAnswerPdf.
    rewrite (bind_ok _ _ qs) by exact Hj.
    destruct qs as [|q qs']; [contradiction|]. simpl.
    split; [reflexivity|]. intros p. rewrite app_nil_r.
    apply json_attempt_no_extract.
  - intros Hj Hy. unfold generateQuestionsFromAnswerPdf.
    rewrite (bind_ok _ _ []) by exact Hj. simpl. rewrite Hy. simpl.
    split; [reflexivity|]. intros p. rewrite app_nil_r.
    apply json_attempt_no_extract.
  - intros y Hj Hy Hpaths. unfold generateQuestionsFromAnswerPdf.
    rewrite (bind_ok _ _ []) by exact Hj. simpl. rewrite Hy.
    destruct Hpaths as [Ha | Hq].
    + rewrite Ha. simpl. split; [eexists; reflexivity|].
      intros p. rewrite app_nil_r. apply json_attempt_no_extract.
    + destruct (w_answer_path w); try rewrite Hq; simpl;
        (split; [eexists; reflexivity|]);
        intros p; rewrite app_nil_r; apply json_attempt_no_extract.
  - intros y ap qp Hj Hy Ha Hq.
    destruct (gen_text_branch e s y ap qp Hj Hy Ha Hq) as [supps [_ ->]].
    simpl. split.
    + apply in_or_app; right. apply in_or_app; right.
      apply in_fst_catch, text_path_extracts_answer_key.
    + intros t Ht Hsa.
      apply in_or_app; right. apply in_or_app; right.
      apply in_fst_catch. apply (text_path_extracts_question e y s ap qp supps t Ht Hsa).
Qed.

(** C3: on the text path, an answer key extracted successfully but with
    no answer for the requested session fails the whole task: the
    result is an error, never a list. *)
Theorem answer_key_empty_is_fatal :
  forall e s y ap qp t,
  snd (jattempt 0 e s) = Ok [] -> w_exam_year w = Some y ->
  w_answer_path w = Some ap -> w_question_path w = Some qp ->
  snd (extractTextFromPDF w ap) = Ok t -> sanswers e s t = [] ->
  exists msg, snd (gen e s) = Err msg.
Proof.
  intros e s y ap qp t Hj Hy Ha Hq Ht Hsa.
  destruct (gen_text_branch e s y ap qp Hj Hy Ha Hq) as [supps [_ ->]]. simpl.
  assert (Hp : exists m, snd (tpath e y s ap qp supps) = Err m).
  { unfold text_path.
    rewrite (bind_ok _ _ t) by (rewrite (catch_ok _ _ t Ht); exact Ht). simpl.
    destruct (negb (Js.truthy t) || Nat.eqb (Js.length (Js.trim t)) 0);
      [eexists; reflexivity|].
    rewrite Hsa. eexists; reflexivity. }
  destruct Hp as [m Hm]. rewrite (catch_err _ _ m Hm). simpl.
  eexists; reflexivity.
Qed.


End Orchestration.

(** ** C4: the scanned question PDF *)

Lemma prefix_app_self (a b : string) : String.prefix a (a ++ b) = true.
Proof.
  induction a as [|c a IH]; simpl; [destruct b; reflexivity|].
  destruct (ascii_dec c c); [exact IH | contradiction].
Qed.

Lemma includes_app_r (a b x : string) :
  Js.includes b x = true -> Js.includes (a ++ b) x = true.
Proof.
  induction a as [|c a IH]; simpl; [auto|].
  intros H. rewrite (IH H). apply orb_true_r.
Qed.

Lemma includes_app_self (x c : string) : Js.includes (x ++ c) x = true.
Proof.
  pose proof (prefix_app_self x c) as H.
  remember (x ++ c) as h eqn:E. clear E.
  destruct h; unfold Js.includes; fold Js.includes; rewrite H; reflexivity.
Qed.

(** The guidance message of the short-text branch names the expected
    JSON path and carries the JSON template. *)
Lemma scanned_message_guidance e y s :
  Js.includes (scanned_pdf_message e y s) (QuestionData.getQuestionDataPath e s) = true /\
  Js.includes (scanned_pdf_message e y s) (json_template e y s) = true.
Proof.
  unfold scanned_pdf_message. split.
  - do 3 apply includes_app_r. apply includes_app_self.
  - do 9 apply includes_app_r.
    pose proof (prefix_app_self (json_template e y s) "") as H.
    remember (json_template e y s) as x eqn:E. clear E.
    assert (Hx : (x ++ "")%string = x)
      by (clear H; induction x as [|c x IH]; simpl; [reflexivity | rewrite IH; reflexivity]).
    rewrite Hx in H.
    destruct x; unfold Js.includes; fold Js.includes; rewrite H; reflexivity.
Qed.

(** C4 (failing input): a question PDF whose pages carry no text item
    makes [extractTextFromPDF] throw, so the catch branch runs: it does
    retry the JSON source, but the error it raises names neither the
    expected JSON path nor the JSON template, unlike the short-text
    branch ([scanned_message_guidance]). *)
Theorem scanned_question_pdf_error_lacks_guidance :
  let r := gen_plain answers_30 world_scanned 30 gozen in
  In (EvCheckJson 1) (fst r) /\
  exists msg, snd r = Err msg /\
    Js.includes msg (QuestionData.getQuestionDataPath 30 gozen) = false /\
    Js.includes msg (json_template 30 2018 gozen) = false.
Proof.
  vm_compute. split.
  - right; right; right; left; reflexivity.
  - eexists. split; [reflexivity|]. split; reflexivity.
Qed.

(** ** C1: counterexample and witnesses *)

(** C1 (counterexample): with a non-empty JSON file the answer-key PDF's
    text is still extracted, by the JSON loader for its answer map; and
    with no JSON file and no answer-key path configured the task fails
    without attempting any extraction. *)
Lemma generation_fallback_counterexample :
  let run1 := gen_plain answers_30
                (with_json_file world_scanned
                   (scenario_file 30 2018 gozen (scenario_item "q" (Some "b") None)))
                30 gozen in
  let run2 := gen_plain answers_30 world_no_answer_path 30 gozen in
  (exists qs, snd run1 = Ok qs /\ qs <> []) /\
  In (EvAnswerMapExtract ANSWER_PDF) (fst run1) /\
  w_json_head world_no_answer_path 0 = false /\
  (exists msg, snd run2 = Err msg) /\
  (forall p, ~ In (EvExtract p) (fst run2)).
Proof.
  vm_compute. split; [eexists; split; [reflexivity | discriminate]|].
  split; [right; right; left; reflexivity|].
  split; [reflexivity|].
  split; [eexists; reflexivity|].
  intros p [H | H]; [discriminate | exact H].
Qed.

(** A witness for [generation_fallback_order], one world per case. *)
Lemma generation_fallback_order_witness :
  (exists qs,
     snd (json_attempt answers_30 (fun _ _ => "") world_json 0 30 gozen) = Ok qs /\ qs <> [] /\
     snd (gen_plain answers_30 world_json 30 gozen) = Ok qs /\
     forall p, ~ In (EvExtract p) (fst (gen_plain answers_30 world_json 30 gozen))) /\
  (snd (gen_plain answers_30 world_no_config 30 gozen) = Ok [] /\
   forall p, ~ In (EvExtract p) (fst (gen_plain answers_30 world_no_config 30 gozen))) /\
  ((exists msg, snd (gen_plain answers_30 world_no_answer_path 30 gozen) = Err msg) /\
   forall p, ~ In (EvExtract p) (fst (gen_plain answers_30 world_no_answer_path 30 gozen))) /\
  (In (EvExtract ANSWER_PDF) (fst (gen_plain answers_30 world_scanned 30 gozen)) /\
   In (EvExtract QUESTION_PDF) (fst (gen_plain answers_30 world_scanned 30 gozen))).
Proof.
  split; [|split; [|split]].
  - eexists. split; [vm_compute; reflexivity|]. split; [vm_compute; discriminate|].
    apply (proj1 (generation_fallback_order answers_30 (fun _ => "") (fun _ => [])
             (fun _ _ => "") (fun _ => []) (fun _ => []) (fun _ => [])
             (fun refs _ _ _ => refs) (fun _ _ => "") world_json 30 gozen));
      vm_compute; [reflexivity | discriminate].
  - apply (proj1 (proj2 (generation_fallback_order answers_30 (fun _ => "") (fun _ => [])
             (fun _ _ => "") (fun _ => []) (fun _ => []) (fun _ => [])
             (fun refs _ _ _ => refs) (fun _ _ => "") world_no_config 30 gozen)));
      vm_compute; reflexivity.
  - apply (proj1 (proj2 (proj2 (generation_fallback_order answers_30 (fun _ => "")
             (fun _ => []) (fun _ _ => "") (fun _ => []) (fun _ => []) (fun _ => [])
             (fun refs _ _ _ => refs) (fun _ _ => "") world_no_answer_path 30 gozen)))
             2018); vm_compute; [reflexivity | reflexivity | left; reflexivity].
  - pose proof (proj2 (proj2 (proj2 (generation_fallback_order answers_30 (fun _ => "")
             (fun _ => []) (fun _ _ => "") (fun _ => []) (fun _ => []) (fun _ => [])
             (fun refs _ _ _ => refs) (fun _ _ => "") world_scanned 30 gozen)))
             2018 ANSWER_PDF QUESTION_PDF ltac:(vm_compute; reflexivity)
             ltac:(vm_compute; reflexivity) ltac:(vm_compute; reflexivity)
             ltac:(vm_compute; reflexivity)) as [H1 H2].
    split; [exact H1|].
    apply (H2 (page_text ["問1"; "a"; "問2"; "b"])); vm_compute; [reflexivity | discriminate].
Defined.

(** A witness for [answer_key_empty_is_fatal]: the readable answer key of
    [world_scanned] with a parser that finds no answer. *)
Lemma answer_key_empty_is_fatal_witness :
  exists msg, snd (gen_plain no_answers world_scanned 30 gozen) = Err msg.
Proof.
  apply (answer_key_empty_is_fatal no_answers (fun _ => "") (fun _ => [])
           (fun _ _ => "") (fun _ => []) (fun _ => []) (fun _ => [])
           (fun refs _ _ _ => refs) (fun _ _ => "") world_scanned 30 gozen 2018
           ANSWER_PDF QUESTION_PDF (page_text ["問1"; "a"; "問2"; "b"]));
    vm_compute; reflexivity.
Defined.



(** ** C6: the choice shuffle *)

Lemma relabel_fst i l : map fst (Shuffle.relabel i l) = l.
Proof.
  revert i; induction l as [|c l IH]; intros i; simpl; [reflexivity | now rewrite IH].
Qed.

Lemma relabel_snd_in i l x :
  In x (map snd (Shuffle.relabel i l)) ->
  exists k, i <= k < i + length l /\ x = Shuffle.letter k.
Proof.
  revert i; induction l as [|c l IH]; intros i; simpl; [tauto|].
  intros [H | H].
  - exists i. split; [lia | now symmetry].
  - destruct (IH (S i) H) as [k [Hk ->]]. exists k. split; [lia | reflexivity].
Qed.

Lemma letter_inj i k : i < 26 -> k < 26 -> Shuffle.letter i = Shuffle.letter k -> i = k.
Proof.
  unfold Shuffle.letter. intros Hi Hk H. injection H as H.
  apply (f_equal nat_of_ascii) in H.
  rewrite !nat_ascii_embedding in H by lia. lia.
Qed.

Lemma relabel_snd_nodup i l :
  i + length l <= 26 -> NoDup (map snd (Shuffle.relabel i l)).
Proof.
  revert i; induction l as [|c l IH]; intros i Hlen; simpl; [constructor|].
  simpl in Hlen. constructor; [|apply IH; lia].
  intros Hin. destruct (relabel_snd_in (S i) l _ Hin) as [k [Hk Hik]].
  apply letter_inj in Hik; lia.
Qed.

Lemma lookup_in m k v : Shuffle.lookup m k = Some v -> In (k, v) m.
Proof.
  induction m as [|[k' v'] m IH]; simpl; [discriminate|].
  destruct (String.eqb_spec k k') as [-> | _].
  - intros H; injection H as ->. now left.
  - intros H; right; auto.
Qed.

Lemma lookup_nodup m k v :
  NoDup (map fst m) -> In (k, v) m -> Shuffle.lookup m k = Some v.
Proof.
  induction m as [|[k' v'] m IH]; simpl; [tauto|].
  intros Hnd Hin; inversion Hnd as [|? ? Hnot Hnd']; subst.
  destruct (String.eqb_spec k k') as [-> | Hne].
  - destruct Hin as [H | H]; [now injection H as ->|].
    exfalso; apply Hnot. now apply (in_map fst) in H.
  - destruct Hin as [H | H]; [now injection H as -> | auto].
Qed.

Lemma nodup_snd_inj {A B} (l : list (A * B)) p p' :
  NoDup (map snd l) -> In p l -> In p' l -> snd p = snd p' -> p = p'.
Proof.
  induction l as [|x l IH]; simpl; [tauto|].
  intros Hnd Hp Hp' Heq; inversion Hnd as [|? ? Hnot Hnd']; subst.
  destruct Hp as [<- | Hp], Hp' as [<- | Hp']; auto.
  - exfalso; apply Hnot. rewrite Heq. now apply in_map.
  - exfalso; apply Hnot. rewrite <- Heq. now apply in_map.
Qed.

Lemma existsb_map' {A B} (f : B -> bool) (g : A -> B) l :
  existsb f (map g l) = existsb (fun x => f (g x)) l.
Proof. induction l as [|x l IH]; simpl; [reflexivity | now rewrite IH]. Qed.

Lemma existsb_relabel (f : Choice -> bool) i l :
  existsb f l = existsb (fun p => f (fst p)) (Shuffle.relabel i l).
Proof. rewrite <- (existsb_map' f fst), relabel_fst. reflexivity. Qed.

Lemma existsb_ext_in {A} (f g : A -> bool) l :
  (forall x, In x l -> f x = g x) -> existsb f l = existsb g l.
Proof.
  induction l as [|x l IH]; simpl; intros H; [reflexivity|].
  rewrite (H x (or_introl eq_refl)), IH; [reflexivity|]. intros y Hy; apply H; now right.
Qed.

Lemma existsb_perm {A} (f : A -> bool) l l' :
  Permutation l l' -> existsb f l = existsb f l'.
Proof.
  intros Hp. apply eq_true_iff_eq. rewrite !existsb_exists. split.
  - intros [x [Hx Hf]]. exists x. split; [exact (Permutation_in _ Hp Hx) | exact Hf].
  - intros [x [Hx Hf]]. exists x. split; [exact (Permutation_in _ (Permutation_sym Hp) Hx) | exact Hf].
Qed.

Lemma correct_labels_shuffle q perm :
  Shuffle.correct_labels (Shuffle.shuffleChoices q perm) =
  map (Shuffle.remap (map (fun p => (label (fst p), snd p)) (Shuffle.relabel 0 perm)))
      (Shuffle.correct_labels q).
Proof.
  unfold Shuffle.correct_labels, Shuffle.shuffleChoices; simpl.
  destruct (correctAnswers q) as [[|x rest]|]; reflexivity.
Qed.

(** For a choice of the relabelled list, the old labels the mapping sends
    to its new label are exactly its own old label. *)
Lemma remap_hits perm p l :
  NoDup (map label perm) -> length perm <= 26 ->
  In p (Shuffle.relabel 0 perm) ->
  Shuffle.remap (map (fun p => (label (fst p), snd p)) (Shuffle.relabel 0 perm)) l = snd p <->
  l = label (fst p).
Proof.
  intros Hnd Hlen Hp.
  set (pairs := Shuffle.relabel 0 perm) in *.
  set (mapping := map (fun p => (label (fst p), snd p)) pairs).
  assert (Hkeys : NoDup (map fst mapping)).
  { unfold mapping. rewrite map_map. simpl.
    rewrite <- (map_map fst label). unfold pairs. now rewrite relabel_fst. }
  assert (Hvals : NoDup (map snd pairs)) by (apply relabel_snd_nodup; simpl; lia).
  split.
  - unfold Shuffle.remap. destruct (Shuffle.lookup mapping l) as [v|] eqn:Hl.
    + intros ->. apply lookup_in in Hl. unfold mapping in Hl.
      apply in_map_iff in Hl. destruct Hl as [p' [Hp'eq Hp']].
      injection Hp'eq as Hlab Hsnd.
      rewrite (nodup_snd_inj pairs p p' Hvals Hp Hp' (eq_sym Hsnd)). now symmetry.
    + intros Hsnd. exfalso.
      assert (Hin : In (snd p) (map snd pairs)) by now apply in_map.
      destruct (relabel_snd_in 0 perm _ Hin) as [k [_ Hk]].
      rewrite <- Hsnd in Hk. unfold Shuffle.letter in Hk. discriminate.
  - intros ->. unfold Shuffle.remap.
    rewrite (lookup_nodup mapping (label (fst p)) (snd p) Hkeys); [reflexivity|].
    unfold mapping. apply (in_map (fun p => (label (fst p), snd p))) in Hp. exact Hp.
Qed.

Lemma isCorrect_labels (toLowerCase : string -> string) q sel :
  isCorrect toLowerCase q sel =
  existsb (fun ca => String.eqb (toLowerCase ca) (toLowerCase sel)) (Shuffle.correct_labels q).
Proof. reflexivity. Qed.

Lemma nodup_map_inj {A B} (h : A -> B) l x y :
  NoDup (map h l) -> In x l -> In y l -> h x = h y -> x = y.
Proof.
  induction l as [|z l IH]; simpl; [tauto|].
  intros Hnd Hx Hy Heq; inversion Hnd as [|? ? Hnot Hnd']; subst.
  destruct Hx as [<- | Hx], Hy as [<- | Hy]; auto.
  - exfalso; apply Hnot. rewrite Heq. now apply in_map.
  - exfalso; apply Hnot. rewrite <- Heq. now apply in_map.
Qed.

Lemma lower_letter i : i < 26 -> Js.toLowerCase (Shuffle.letter i) = Shuffle.letter i.
Proof.
  intros Hi. unfold Shuffle.letter. cbn [Js.toLowerCase]. unfold Js.lower_char.
  rewrite nat_ascii_embedding by lia.
  destruct (Nat.leb_spec (97 + i) 90); [lia|]. rewrite andb_false_r. reflexivity.
Qed.

(** C6 (amended): shuffling a question's choices (any reordering [perm]
    of them) keeps the grading of a selected choice by its text, with
    [handleAnswer]'s case-insensitive test, for a question with at most
    26 choices whose labels differ even after [toLowerCase] and each of
    whose correct labels is exactly the label of one of its choices (and
    for a [toLowerCase] that keeps the letters a..z apart, as
    JavaScript's does). *)
Theorem shuffle_preserves_correct_texts :
  forall (toLowerCase : string -> string) q perm,
  (forall i k, i < 26 -> k < 26 ->
     toLowerCase (Shuffle.letter i) = toLowerCase (Shuffle.letter k) -> i = k) ->
  NoDup (map (fun c => toLowerCase (label c)) (choices q)) ->
  (forall ca, In ca (Shuffle.correct_labels q) -> In ca (map label (choices q))) ->
  length (choices q) <= 26 ->
  Permutation (choices q) perm ->
  forall t, Shuffle.correct_text toLowerCase (Shuffle.shuffleChoices q perm) t =
            Shuffle.correct_text toLowerCase q t.
Proof.
  intros lower q perm Hlet Hndl Hcl Hlen Hperm t.
  assert (Hndl' : NoDup (map (fun c => lower (label c)) perm))
    by exact (Permutation_NoDup (Permutation_map _ Hperm) Hndl).
  assert (Hnd' : NoDup (map label perm)).
  { rewrite <- (map_map label lower) in Hndl'. exact (NoDup_map_inv _ _ Hndl'). }
  assert (Hndp : NoDup perm) by exact (NoDup_map_inv _ _ Hnd').
  assert (Hlen' : length perm <= 26) by (rewrite <- (Permutation_length Hperm); exact Hlen).
  set (pairs := Shuffle.relabel 0 perm).
  assert (Hsnd : forall p p', In p pairs -> In p' pairs ->
                   lower (snd p) = lower (snd p') -> p = p').
  { intros p p' Hp Hp' Heq.
    destruct (relabel_snd_in 0 perm (snd p) (in_map snd _ _ Hp)) as [k [Hk Ek]].
    destruct (relabel_snd_in 0 perm (snd p') (in_map snd _ _ Hp')) as [k' [Hk' Ek']].
    rewrite Ek, Ek' in Heq. apply Hlet in Heq; try lia. subst k'.
    apply (nodup_snd_inj pairs p p'); auto.
    - apply relabel_snd_nodup. simpl. lia.
    - congruence. }
  assert (Hfst : forall p p', In p pairs -> In p' pairs ->
                   lower (label (fst p)) = lower (label (fst p')) -> p = p').
  { intros p p' Hp Hp' Heq.
    assert (Hin : forall x, In x pairs -> In (fst x) perm).
    { intros x Hx. rewrite <- (relabel_fst 0 perm). exact (in_map fst _ _ Hx). }
    pose proof (nodup_map_inj (fun c => lower (label c)) perm _ _ Hndl'
                  (Hin p Hp) (Hin p' Hp') Heq) as Ef.
    apply (nodup_map_inj fst pairs); auto.
    unfold pairs. rewrite relabel_fst. exact Hndp. }
  unfold Shuffle.correct_text. cbn [Shuffle.shuffleChoices choices].
  rewrite existsb_map'. cbn [text label].
  rewrite (existsb_perm _ (choices q) perm Hperm), (existsb_relabel _ 0 perm).
  fold pairs.
  apply existsb_ext_in. intros p Hp. f_equal.
  rewrite !isCorrect_labels, correct_labels_shuffle, existsb_map'. fold pairs.
  apply eq_true_iff_eq. rewrite !existsb_exists.
  assert (Key : forall ca, In ca (Shuffle.correct_labels q) ->
     lower (Shuffle.remap (map (fun p => (label (fst p), snd p)) pairs) ca) = lower (snd p) <->
     lower ca = lower (label (fst p))).
  { intros ca Hca.
    pose proof (Permutation_in _ (Permutation_map label Hperm) (Hcl ca Hca)) as Hc.
    apply in_map_iff in Hc as [c' [Ec' Hc']].
    rewrite <- (relabel_fst 0 perm) in Hc'. apply in_map_iff in Hc' as [p' [Ep' Hp']].
    fold pairs in Hp'.
    assert (Er : Shuffle.remap (map (fun p => (label (fst p), snd p)) pairs) ca = snd p').
    { apply (proj2 (remap_hits perm p' ca Hnd' Hlen' Hp')). congruence. }
    rewrite Er. subst ca c'.
    split; intros Heq.
    - rewrite (Hsnd p' p Hp' Hp Heq). reflexivity.
    - rewrite (Hfst p' p Hp' Hp Heq). reflexivity. }
  split; intros [ca [Hca Heq]]; exists ca; split; try exact Hca;
    apply String.eqb_eq in Heq; apply String.eqb_eq; apply (Key ca Hca); exact Heq.
Qed.

(** A witness for [shuffle_preserves_correct_texts]: after moving choice
    b first (it becomes a) the text "Y" is still the correct one, graded
    with [toLowerCase] on these ASCII labels. *)
Lemma shuffle_preserves_correct_texts_witness :
  Shuffle.correct_text Js.toLowerCase (Shuffle.shuffleChoices shuffle_question shuffle_perm) "Y" =
  Shuffle.correct_text Js.toLowerCase shuffle_question "Y".
Proof.
  apply (shuffle_preserves_correct_texts Js.toLowerCase shuffle_question shuffle_perm).
  - intros i k Hi Hk. rewrite !lower_letter by assumption. apply letter_inj; assumption.
  - vm_compute. repeat constructor; simpl; intuition discriminate.
  - vm_compute. intros ca [<- | []]. tauto.
  - vm_compute. lia.
  - vm_compute. apply perm_swap.
Defined.

(** C6 (counterexample): a question whose [correctAnswer] is "B" against
    the choice labelled b.  Before the shuffle, [handleAnswer] grades the
    choice "Y" correct ("B" and "b" agree after [toLowerCase]); the
    shuffle's mapping matches the exact old label, finds no "B", and the
    shuffled copy grades "Y" wrong.  All strings here are ASCII, where
    [Js.toLowerCase] is JavaScript's [toLowerCase]. *)
Lemma shuffle_upper_case_answer_counterexample :
  Permutation (choices shuffle_question_upper) shuffle_perm /\
  Shuffle.correct_text Js.toLowerCase shuffle_question_upper "Y" = true /\
  Shuffle.correct_text Js.toLowerCase
    (Shuffle.shuffleChoices shuffle_question_upper shuffle_perm) "Y" = false /\
  correctAnswer (Shuffle.shuffleChoices shuffle_question_upper shuffle_perm) = "".
Proof.
  split; [vm_compute; apply perm_swap|].
  split; [|split]; vm_compute; reflexivity.
Qed.
(* ================================================================== *)
(** * Further properties of the code *)

(** Unfold the category tables and split on their range tests. *)
Ltac unfold_ranges :=
  cbn [CategoryConfig.first_range CategoryConfig.session_mapping
       CategoryConfig.GOZEN_CATEGORY_MAPPING CategoryConfig.GOGO_CATEGORY_MAPPING
       CategoryConfig.startQuestion CategoryConfig.endQuestion CategoryConfig.category] in *.

Ltac leb_cases :=
  repeat (match goal with
          | |- context [if Nat.leb ?a ?b && Nat.leb ?c ?d then _ else _] =>
              destruct (Nat.leb_spec a b); [destruct (Nat.leb_spec c d)|]; cbn [andb]
          end; try (reflexivity || lia)).

(** A question number inside one of its session's category ranges gets
    that range's category: the ranges of a session do not overlap. *)
Theorem category_of_range (n : nat) (s : SessionType) (r : CategoryConfig.QuestionRangeMapping) :
  In r (CategoryConfig.session_mapping s) ->
  CategoryConfig.startQuestion r <= n <= CategoryConfig.endQuestion r ->
  CategoryConfig.getCategoryByQuestionNumber n s = CategoryConfig.category r.
Proof.
  intros Hin Hr.
  unfold CategoryConfig.getCategoryByQuestionNumber.
  destruct s; unfold_ranges; repeat destruct Hin as [<- | Hin]; try contradiction;
    unfold_ranges; leb_cases.
Qed.


(** The category ranges of the morning session cover 1..128 without a gap
    and those of the afternoon session 1..122; no range is found (and the
    default category applies) only for 0 and numbers past the last. *)
Theorem category_default_outside (n : nat) (s : SessionType) :
  CategoryConfig.first_range (CategoryConfig.session_mapping s) n = None <->
  n = 0 \/ session_last s < n.
Proof.
  destruct s; unfold_ranges; cbn [session_last];
    repeat match goal with
           | |- context [if Nat.leb ?a ?b && Nat.leb ?c ?d then _ else _] =>
               destruct (Nat.leb_spec a b); [destruct (Nat.leb_spec c d)|]; cbn [andb]
           end;
    split; intros; first [discriminate | reflexivity | lia].
Qed.

(** [getCategoryInfo] returns the entry of the category asked for, which
    [getAllCategories] lists; that list names each category once. *)
Theorem category_info_lookup :
  (forall c, CategoryConfig.id (CategoryConfig.getCategoryInfo c) = c) /\
  NoDup (map CategoryConfig.id CategoryConfig.getAllCategories) /\
  (forall c, In (CategoryConfig.getCategoryInfo c) CategoryConfig.getAllCategories).
Proof.
  split; [|split].
  - destruct c; reflexivity.
  - cbn. repeat constructor; cbn; intuition discriminate.
  - destruct c; cbn; tauto.
Qed.

Lemma exam_config_none e :
  ~ In e PdfConfig.getAvailableExamNumbers -> PdfConfig.getExamConfig e = None.
Proof.
  intros H. cbn in H.
  unfold PdfConfig.getExamConfig. cbn [find PdfConfig.EXAM_CONFIGS PdfConfig.examNumber].
  repeat match goal with
         | |- context [Nat.eqb ?a e] => destruct (Nat.eqb_spec a e); [exfalso; apply H; tauto|]
         end.
  reflexivity.
Qed.

Lemma answer_pdf_none e :
  ~ In e PdfConfig.getAvailableExamNumbers -> PdfConfig.getAnswerPdfPath e = None.
Proof.
  intros H. cbn in H.
  unfold PdfConfig.getAnswerPdfPath. cbn [PdfConfig.answer_pdf_lookup PdfConfig.ANSWER_PDF_MAP].
  repeat match goal with
         | |- context [Nat.eqb ?a e] => destruct (Nat.eqb_spec a e); [exfalso; apply H; tauto|]
         end.
  reflexivity.
Qed.

Lemma unconfigured_lookups e :
  ~ In e PdfConfig.getAvailableExamNumbers ->
  PdfConfig.getExamConfig e = None /\ PdfConfig.getAnswerPdfPath e = None /\
  PdfConfig.isExamAvailable e = false /\
  forall s, PdfConfig.getQuestionPdfPath e s = None /\ PdfConfig.getBessatsuPdfPath e s = None.
Proof.
  intros H. pose proof (exam_config_none e H) as Hc.
  unfold PdfConfig.isExamAvailable, PdfConfig.getQuestionPdfPath, PdfConfig.getBessatsuPdfPath.
  rewrite Hc. repeat split; auto using answer_pdf_none.
Qed.

Lemma configured_lookups e s :
  In e PdfConfig.getAvailableExamNumbers ->
  exists y qp bp,
    option_map PdfConfig.year (PdfConfig.getExamConfig e) = Some y /\
    PdfConfig.getAnswerPdfPath e = Some ("/answers/" ++ Js.of_nat e ++ "_seitou.pdf") /\
    PdfConfig.isExamAvailable e = true /\
    PdfConfig.getQuestionPdfPath e s = Some qp /\
    PdfConfig.getBessatsuPdfPath e s = Some bp.
Proof.
  intros H; cbn in H.
  repeat destruct H as [<- | H]; try contradiction;
    destruct s; do 3 eexists; repeat split; reflexivity.
Qed.

(** For an exam number in [getAvailableExamNumbers] the configuration
    gives its year, the answer key [/answers/<n>_seitou.pdf], a question and
    a supplement PDF path for each session, and reports it available; for
    any other number every lookup gives nothing and it is unavailable. *)
Theorem exam_lookups_defined (e : nat) (s : SessionType) :
  (In e PdfConfig.getAvailableExamNumbers ->
   exists y qp bp,
     option_map PdfConfig.year (PdfConfig.getExamConfig e) = Some y /\
     PdfConfig.getAnswerPdfPath e = Some ("/answers/" ++ Js.of_nat e ++ "_seitou.pdf") /\
     PdfConfig.isExamAvailable e = true /\
     PdfConfig.getQuestionPdfPath e s = Some qp /\
     PdfConfig.getBessatsuPdfPath e s = Some bp) /\
  (~ In e PdfConfig.getAvailableExamNumbers ->
   PdfConfig.getExamConfig e = None /\ PdfConfig.getAnswerPdfPath e = None /\
   PdfConfig.isExamAvailable e = false /\
   PdfConfig.getQuestionPdfPath e s = None /\ PdfConfig.getBessatsuPdfPath e s = None).
Proof.
  split; [apply configured_lookups|].
  intros H. destruct (unconfigured_lookups e H) as [H1 [H2 [H3 H4]]].
  repeat split; try apply H4; assumption.
Qed.

(** Every question or supplement PDF path the configuration returns is
    [/pdfs/] followed by a file name [getAllPdfFilenames] lists. *)
Theorem pdf_paths_listed (e : nat) (s : SessionType) (p : string) :
  (PdfConfig.getQuestionPdfPath e s = Some p \/ PdfConfig.getBessatsuPdfPath e s = Some p) ->
  exists f, p = PdfConfig.PDF_BASE_PATHS_questions ++ f /\ In f PdfConfig.getAllPdfFilenames.
Proof.
  unfold PdfConfig.getQuestionPdfPath, PdfConfig.getBessatsuPdfPath.
  destruct (PdfConfig.getExamConfig e) as [c|] eqn:E; [|intros [H|H]; discriminate].
  apply find_some in E as [Hin _]. cbn in Hin.
  repeat destruct Hin as [<- | Hin]; try contradiction;
    destruct s; cbn; intros [H|H]; injection H as <-; eexists; split; try reflexivity;
    cbn; tauto.
Qed.

Lemma jsmap_get_set_same m k v : JsMap.get (JsMap.set m k v) k = Some v.
Proof.
  induction m as [|[k' v'] m IH]; cbn.
  - rewrite String.eqb_refl; reflexivity.
  - destruct (String.eqb_spec k' k); cbn.
    + rewrite String.eqb_refl; reflexivity.
    + apply String.eqb_neq in n; rewrite n; exact IH.
Qed.

Lemma jsmap_get_set_other m k k' v :
  k <> k' -> JsMap.get (JsMap.set m k v) k' = JsMap.get m k'.
Proof.
  intros Hne. induction m as [|[k0 v0] m IH]; cbn.
  - apply String.eqb_neq in Hne; rewrite Hne; reflexivity.
  - destruct (String.eqb_spec k0 k); cbn.
    + subst k0. apply String.eqb_neq in Hne; rewrite Hne; reflexivity.
    + destruct (String.eqb k0 k'); [reflexivity | exact IH].
Qed.

Lemma jsmap_get_set_keep m k k' v x :
  JsMap.get m k' = Some x -> JsMap.get m k = None ->
  JsMap.get (JsMap.set m k v) k' = Some x.
Proof.
  intros H1 H2. destruct (String.eqb_spec k k') as [<-|Hne].
  - congruence.
  - rewrite jsmap_get_set_other by exact Hne. exact H1.
Qed.

Lemma jsmap_get_delete m k k' :
  JsMap.get (JsMap.delete m k) k' = if String.eqb k k' then None else JsMap.get m k'.
Proof.
  unfold JsMap.delete. induction m as [|[k0 v0] m IH]; cbn.
  - destruct (String.eqb k k'); reflexivity.
  - destruct (String.eqb_spec k0 k); cbn.
    + subst k0. rewrite IH. destruct (String.eqb_spec k k'); reflexivity.
    + destruct (String.eqb_spec k0 k'); [|exact IH].
      subst k0. apply String.eqb_neq in n; rewrite String.eqb_sym, n; reflexivity.
Qed.

Lemma jsmap_get_fold_delete ks m k :
  JsMap.get (fold_left JsMap.delete ks m) k =
  if existsb (fun x => String.eqb x k) ks then None else JsMap.get m k.
Proof.
  revert m. induction ks as [|x ks IH]; intros m; cbn; [reflexivity|].
  rewrite IH, jsmap_get_delete.
  destruct (String.eqb x k); cbn; [destruct (existsb _ ks)|]; reflexivity.
Qed.

Lemma jsmap_get_keys m k v : JsMap.get m k = Some v -> In k (JsMap.keys m).
Proof.
  induction m as [|[k0 v0] m IH]; cbn; [discriminate|].
  destruct (String.eqb_spec k0 k); [left; exact e | intros H; right; exact (IH H)].
Qed.

Lemma jsmap_get_keys_none m k :
  existsb (fun x => String.eqb x k) (JsMap.keys m) = false -> JsMap.get m k = None.
Proof.
  intros H. destruct (JsMap.get m k) as [v|] eqn:E; [|reflexivity].
  apply jsmap_get_keys in E.
  assert (existsb (fun x => String.eqb x k) (JsMap.keys m) = true) as H'
    by (apply existsb_exists; exists k; split; [exact E | apply String.eqb_refl]).
  congruence.
Qed.

Lemma jsmap_in_nset r k v p u :
  In (p, u) (JsMap.nset r k v) -> (p, u) = (k, v) \/ In (p, u) r.
Proof.
  induction r as [|[k0 v0] r IH]; cbn.
  - intros [H|[]]; left; congruence.
  - destruct (Nat.eqb k0 k); cbn.
    + intros [H|H]; [left; congruence | right; right; exact H].
    + intros [H|H]; [right; left; exact H|].
      destruct (IH H) as [H'|H']; [left; exact H' | right; right; exact H'].
Qed.


Lemma of_nat_digits n : all_digits (Js.of_nat n) = true.
Proof.
  unfold Js.of_nat. generalize (Nat.to_uint n) as d.
  induction d; cbn; try rewrite IHd; reflexivity.
Qed.

Lemma of_nat_inj a b : Js.of_nat a = Js.of_nat b -> a = b.
Proof.
  unfold Js.of_nat. intros H.
  apply (f_equal NilEmpty.uint_of_string) in H. rewrite !NilEmpty.usu in H.
  injection H as H. exact (DecimalNat.Unsigned.to_uint_inj a b H).
Qed.

Lemma of_nat_eqb a b : String.eqb (Js.of_nat a) (Js.of_nat b) = Nat.eqb a b.
Proof.
  destruct (String.eqb_spec (Js.of_nat a) (Js.of_nat b)) as [H|H];
    destruct (Nat.eqb_spec a b) as [H'|H']; try reflexivity.
  - exfalso; exact (H' (of_nat_inj a b H)).
  - exfalso; subst; exact (H eq_refl).
Qed.

Lemma prefix_digits_sep (sep : ascii) a b t t' :
  is_digit sep = false -> all_digits a = true -> all_digits b = true ->
  String.prefix (a ++ String sep t) (b ++ String sep t') =
  String.eqb a b && String.prefix t t'.
Proof.
  intros Hsep. revert b. induction a as [|x a IH]; intros b Ha Hb; destruct b as [|y b].
  - cbn. destruct (ascii_dec sep sep) as [_|n]; [reflexivity | exfalso; exact (n eq_refl)].
  - cbn in *. destruct (ascii_dec sep y) as [<-|_]; [|reflexivity].
    rewrite Hsep in Hb; discriminate.
  - cbn in *. destruct (ascii_dec x sep) as [->|_]; [|reflexivity].
    rewrite Hsep in Ha; discriminate.
  - cbn in Ha, Hb. apply andb_prop in Ha as [_ Ha]. apply andb_prop in Hb as [_ Hb].
    cbn. destruct (ascii_dec x y) as [<-|n].
    + rewrite Ascii.eqb_refl. exact (IH b Ha Hb).
    + apply Ascii.eqb_neq in n. rewrite n. reflexivity.
Qed.

Lemma prefix_empty x : String.prefix "" x = true.
Proof. destruct x; reflexivity. Qed.

Lemma clear_get c e so k :
  JsMap.get (clearBessatsuCacheForExam c e so) k =
  if String.prefix (Js.of_nat e ++ "-") k &&
     match so with
     | None => true
     | Some s => String.prefix (Js.of_nat e ++ "-" ++ session_str s ++ "-") k
     end
  then None else JsMap.get c k.
Proof.
  unfold clearBessatsuCacheForExam. rewrite jsmap_get_fold_delete.
  set (pred := fun key => String.prefix (Js.of_nat e ++ "-") key &&
                 match so with
                 | None => true
                 | Some s => String.prefix (Js.of_nat e ++ "-" ++ session_str s ++ "-") key
                 end).
  change ((if existsb (fun x => String.eqb x k) (filter pred (JsMap.keys c)) then None
           else JsMap.get c k) = (if pred k then None else JsMap.get c k)).
  destruct (pred k) eqn:Hp.
  - destruct (existsb (fun x => String.eqb x k) (filter pred (JsMap.keys c))) eqn:E;
      [reflexivity|].
    apply jsmap_get_keys_none.
    destruct (existsb (fun x => String.eqb x k) (JsMap.keys c)) eqn:E'; [|reflexivity].
    apply existsb_exists in E' as [x [Hx Heq]]. apply String.eqb_eq in Heq. subst x.
    assert (existsb (fun x => String.eqb x k) (filter pred (JsMap.keys c)) = true)
      by (apply existsb_exists; exists k; split;
          [apply filter_In; split; assumption | apply String.eqb_refl]).
    congruence.
  - destruct (existsb (fun x => String.eqb x k) (filter pred (JsMap.keys c))) eqn:E;
      [|reflexivity].
    apply existsb_exists in E as [x [Hx Heq]]. apply String.eqb_eq in Heq. subst x.
    apply filter_In in Hx as [_ Hx]. congruence.
Qed.

(** On a key built like the renderer's cache keys,
    [clearBessatsuCacheForExam e] removes it exactly when it belongs to exam
    [e] (and, with a session, to that session); other entries keep their
    value, also for exam numbers that share leading digits. *)
Theorem clear_cache_for_exam (c : JsMap.t) (e e' : nat) (s' : SessionType) (p : nat)
    (scale : string) :
  JsMap.get (clearBessatsuCacheForExam c e None) (cacheKey e' s' p scale) =
    (if Nat.eqb e e' then None else JsMap.get c (cacheKey e' s' p scale)) /\
  forall s,
    JsMap.get (clearBessatsuCacheForExam c e (Some s)) (cacheKey e' s' p scale) =
      (if Nat.eqb e e' && session_eqb s s' then None
       else JsMap.get c (cacheKey e' s' p scale)).
Proof.
  assert (Hdash : is_digit "-" = false) by reflexivity.
  split; [|intros s]; rewrite clear_get; unfold cacheKey; cbn [append];
    rewrite (prefix_digits_sep "-" _ _ "" _ Hdash (of_nat_digits e) (of_nat_digits e')),
      of_nat_eqb.
  - rewrite prefix_empty, !andb_true_r. reflexivity.
  - rewrite prefix_empty, andb_true_r.
    rewrite (prefix_digits_sep "-" _ _ _ _ Hdash (of_nat_digits e) (of_nat_digits e')),
      of_nat_eqb.
    destruct (Nat.eqb e e'); cbn [andb]; [|reflexivity].
    destruct s, s'; simpl; rewrite ?prefix_empty; reflexivity.
Qed.

Section RendererProps.

Variable Blob : Type.
Variable fetch : string -> FetchResp Blob.
Variable pdfjsLoads : bool.
Variable numPages : Blob -> option nat.
Variable drawPage : Blob -> nat -> string -> option string.

Local Abbreviation render := (renderBessatsuPage Blob fetch pdfjsLoads numPages drawPage).
Local Abbreviation render_all := (renderAllBessatsuPages Blob fetch pdfjsLoads numPages drawPage).
Local Abbreviation pages_loop := (render_pages Blob pdfjsLoads numPages drawPage).

(** [renderBessatsuPage] answers a cached page without fetching or
    rendering; once it has returned a non-empty image for a page, asking
    again with the resulting cache is such a cache hit. *)
Theorem render_page_memo (c : JsMap.t) (e : nat) (s : SessionType) (p : nat) (scale : string) :
  (forall v, JsMap.get c (cacheKey e s p scale) = Some v -> render c e s p scale = ([], Some v, c)) /\
  (forall ev u c', render c e s p scale = (ev, Some u, c') -> Js.truthy u = true ->
     render c' e s p scale = ([], Some u, c')).
Proof.
  split.
  - intros v Hv. unfold renderBessatsuPage. rewrite Hv. reflexivity.
  - intros ev u c' H Hu. unfold renderBessatsuPage in *.
    destruct (JsMap.get c (cacheKey e s p scale)) as [v|] eqn:Hc.
    + injection H as <- <- <-. rewrite Hc. reflexivity.
    + destruct (path_of (PdfConfig.getBessatsuPdfPath e s)) as [pp|]; [|discriminate].
      destruct (fetch pp) as [| |b]; try discriminate.
      destruct (renderPdfPageToImage Blob pdfjsLoads numPages drawPage b p scale) as [r|];
        [|discriminate].
      injection H as <- -> <-. rewrite Hu, jsmap_get_set_same. reflexivity.
Qed.

(** [renderBessatsuPage] leaves the cache as it was, or adds one entry:
    the non-empty image it returns, under the page's own key, which was not
    cached before. *)
Theorem render_page_cache_write (c : JsMap.t) (e : nat) (s : SessionType) (p : nat)
    (scale : string) ev r c' :
  render c e s p scale = (ev, r, c') ->
  c' = c \/
  (exists u, r = Some u /\ Js.truthy u = true /\
             JsMap.get c (cacheKey e s p scale) = None /\
             c' = JsMap.set c (cacheKey e s p scale) u).
Proof.
  unfold renderBessatsuPage. intros H.
  destruct (JsMap.get c (cacheKey e s p scale)) as [v|] eqn:Hc.
  - injection H as _ _ <-. left; reflexivity.
  - destruct (path_of (PdfConfig.getBessatsuPdfPath e s)) as [pp|];
      [|injection H as _ _ <-; left; reflexivity].
    destruct (fetch pp) as [| |b]; try (injection H as _ _ <-; left; reflexivity).
    destruct (renderPdfPageToImage Blob pdfjsLoads numPages drawPage b p scale) as [[u|]|];
      try (injection H as _ _ <-; left; reflexivity).
    destruct (Js.truthy u) eqn:Hu; injection H as _ <- <-; [right | left; reflexivity].
    exists u; repeat split; assumption.
Qed.


Lemma render_pages_inv b c0 e s scale pages st :
  (forall p, In p pages -> 1 <= p) -> pages_inv c0 e s scale st ->
  pages_inv c0 e s scale (pages_loop b e s scale pages st).
Proof.
  revert st. induction pages as [|page rest IH]; intros [[ev result] cache] Hp Hinv;
    [exact Hinv|].
  cbn [render_pages].
  assert (Hpage : 1 <= page) by (apply Hp; left; reflexivity).
  assert (Hrest : forall p, In p rest -> 1 <= p) by (intros; apply Hp; right; assumption).
  destruct Hinv as [Hres [Hev Hc0]].
  destruct (JsMap.get cache (cacheKey e s page scale)) as [v|] eqn:Hk.
  - apply IH; [exact Hrest|]. split; [|split; assumption].
    intros p u Hin. apply jsmap_in_nset in Hin as [Heq|Hin].
    + injection Heq as -> ->. split; assumption.
    + exact (Hres p u Hin).
  - assert (Hnew : JsMap.get c0 (cacheKey e s page scale) = None).
    { destruct (JsMap.get c0 (cacheKey e s page scale)) eqn:E; [|reflexivity].
      apply Hc0 in E. congruence. }
    assert (Hev' : forall p, In (RRender p) (ev ++ [RRender page]) ->
                   JsMap.get c0 (cacheKey e s p scale) = None).
    { intros p Hin. apply in_app_or in Hin as [Hin|[Heq|[]]];
        [exact (Hev p Hin) | injection Heq as ->; exact Hnew]. }
    destruct (renderPdfPageToImage Blob pdfjsLoads numPages drawPage b page scale)
      as [[u|]|].
    + destruct (Js.truthy u).
      * apply IH; [exact Hrest|]. split; [|split; [exact Hev'|]].
        -- intros p u' Hin. apply jsmap_in_nset in Hin as [Heq|Hin].
           ++ injection Heq as -> ->. split; [exact Hpage | apply jsmap_get_set_same].
           ++ destruct (Hres p u' Hin) as [H1 H2].
              split; [exact H1 | apply jsmap_get_set_keep; assumption].
        -- intros k v Hv. apply jsmap_get_set_keep; [exact (Hc0 k v Hv) | exact Hk].
      * apply IH; [exact Hrest | split; [exact Hres | split; assumption]].
    + apply IH; [exact Hrest | split; [exact Hres | split; assumption]].
    + split; [exact Hres | split; assumption].
Qed.

(** [renderAllBessatsuPages]: every page in the result is numbered from 1
    and is cached with the image returned for it; only pages missing from
    the initial cache are rendered; no cached entry is lost or changed. *)
Theorem render_all_pages_cached (c : JsMap.t) (e : nat) (s : SessionType) (scale : string)
    ev result c' :
  render_all c e s scale = (ev, result, c') ->
  (forall p u, In (p, u) result -> 1 <= p /\ JsMap.get c' (cacheKey e s p scale) = Some u) /\
  (forall p, In (RRender p) ev -> JsMap.get c (cacheKey e s p scale) = None) /\
  (forall k v, JsMap.get c k = Some v -> JsMap.get c' k = Some v).
Proof.
  unfold renderAllBessatsuPages. intros H.
  assert (Hbase : forall ev0, (forall p, ~ In (RRender p) ev0) ->
                  pages_inv c e s scale (ev0, [], c)).
  { intros ev0 Hn. split; [intros p u []|split; [intros p Hp; exfalso; exact (Hn p Hp)|]].
    intros k v Hv; exact Hv. }
  assert (Hfetch : forall pp p, ~ In (RRender p) [RFetch pp])
    by (intros pp p [Heq|[]]; discriminate).
  destruct (path_of (PdfConfig.getBessatsuPdfPath e s)) as [pp|].
  2: { injection H as <- <- <-. exact (Hbase [] (fun p Hp => Hp)). }
  destruct (fetch pp) as [| |b];
    try (injection H as <- <- <-; exact (Hbase _ (Hfetch pp))).
  destruct (getPdfPageCount Blob pdfjsLoads numPages b) as [n|];
    [|injection H as <- <- <-; exact (Hbase _ (Hfetch pp))].
  pose proof (render_pages_inv b c e s scale (seq 1 n) ([RFetch pp], [], c)) as Hinv.
  rewrite H in Hinv. apply Hinv.
  - intros p Hp. apply in_seq in Hp. lia.
  - exact (Hbase _ (Hfetch pp)).
Qed.

End RendererProps.


Lemma bind_ext {A B} (m : M A) (f g : A -> M B) :
  (forall a, f a = g a) -> bind m f = bind m g.
Proof. intros H. destruct m as [l [a|e]]; cbn; [rewrite H|]; reflexivity. Qed.

Lemma loadQuestionsFromJson_ok pa gc w k e s :
  snd (loadQuestionsFromJson pa gc w k e s) = Ok (ok_or_nil (snd (loadQuestionsFromJson pa gc w k e s))).
Proof.
  unfold loadQuestionsFromJson, loadCorrectAnswers. cbn.
  destruct (w_json_get w k); cbn; try reflexivity.
  destruct (w_answer_path w) as [ap|]; cbn; [|reflexivity].
  destruct (w_pdf w ap); reflexivity.
Qed.

Section BatchProps.

Variable parseAnswerText : string -> nat -> list AnswerEntry.
Variable parseQuestionText : string -> string.
Variable extractChoices : string -> list Choice.
Variable locateSection : string -> nat -> string.
Variable flexibleChoices1 : string -> list Choice.
Variable flexibleChoices2 : string -> list Choice.
Variable detectSupplementReferences : string -> list SupplementReference.
Variable linkSupplementReferences :
  list SupplementReference -> nat -> SessionType -> list Supplement -> list SupplementReference.
Variable getCategoryByQuestionNumber : nat -> SessionType -> string.
Variable ws : nat -> SessionType -> World.

Local Abbreviation json e s :=
  (ok_or_nil (snd (loadQuestionsFromJson parseAnswerText getCategoryByQuestionNumber (ws e s) 0 e s))).
Local Abbreviation gs :=
  (gen_session parseAnswerText parseQuestionText extractChoices locateSection
     flexibleChoices1 flexibleChoices2 detectSupplementReferences linkSupplementReferences
     getCategoryByQuestionNumber ws).

Lemma load_sessions_ok e ss acc :
  snd (load_sessions parseAnswerText getCategoryByQuestionNumber ws e ss acc) =
  Ok (acc ++ flat_map (fun s => json e s) ss)%list.
Proof.
  revert acc. induction ss as [|s ss IH]; intros acc; cbn [load_sessions flat_map].
  - rewrite app_nil_r; reflexivity.
  - rewrite (bind_ok _ _ (json e s)) by apply loadQuestionsFromJson_ok.
    cbn [snd]. rewrite IH, app_assoc. reflexivity.
Qed.

Lemma load_exams_ok es ss acc :
  snd (load_exams parseAnswerText getCategoryByQuestionNumber ws es ss acc) =
  Ok (acc ++ flat_map (fun e => flat_map (fun s => json e s) ss) es)%list.
Proof.
  revert acc. induction es as [|e es IH]; intros acc; cbn [load_exams flat_map].
  - rewrite app_nil_r; reflexivity.
  - rewrite (bind_ok _ _ _ (load_sessions_ok e ss acc)). cbn [snd].
    rewrite IH, app_assoc. reflexivity.
Qed.

(** [loadQuestionsWithFilters] never fails: it returns the questions of
    each exam and session in exam-major order, filtered by category when a
    non-empty category list is given. *)
Theorem loadQuestionsWithFilters_concat (examNumbers : list nat) (sessions : list SessionType)
    (categories : option (list CategoryConfig.CategoryId)) :
  snd (loadQuestionsWithFilters parseAnswerText getCategoryByQuestionNumber ws
         examNumbers sessions categories) =
  Ok (let all := flat_map (fun e => flat_map (fun s => json e s) sessions) examNumbers in
      match categories with
      | None | Some [] => all
      | Some cs => filter (in_categories cs) all
      end).
Proof.
  unfold loadQuestionsWithFilters.
  rewrite (bind_ok _ _ _ (load_exams_ok examNumbers sessions [])). cbn [snd app].
  destruct categories as [[|c cs]|]; reflexivity.
Qed.

Lemma generate_sessions_ok e ss acc :
  snd (generate_sessions parseAnswerText parseQuestionText extractChoices locateSection
         flexibleChoices1 flexibleChoices2 detectSupplementReferences linkSupplementReferences
         getCategoryByQuestionNumber ws e ss acc) =
  Ok (acc ++ flat_map (fun s => ok_or_nil (snd (gs e s))) ss)%list.
Proof.
  revert acc. induction ss as [|s ss IH]; intros acc; cbn [generate_sessions flat_map].
  - rewrite app_nil_r; reflexivity.
  - destruct (snd (gs e s)) as [qs|msg] eqn:Hg.
    + rewrite (bind_ok _ _ (inl qs)) by (rewrite (attempt_ok _ qs Hg); reflexivity).
      cbn [snd]. rewrite IH, app_assoc. reflexivity.
    + rewrite (bind_ok _ _ (inr msg)) by (rewrite (attempt_err _ msg Hg); reflexivity).
      cbn [snd ok_or_nil app]. rewrite IH. reflexivity.
Qed.

Lemma generate_exams_ok es acc :
  snd (generate_exams parseAnswerText parseQuestionText extractChoices locateSection
         flexibleChoices1 flexibleChoices2 detectSupplementReferences linkSupplementReferences
         getCategoryByQuestionNumber ws es acc) =
  Ok (acc ++ flat_map (fun e => flat_map (fun s => ok_or_nil (snd (gs e s))) [gozen; gogo]) es)%list.
Proof.
  revert acc. induction es as [|e es IH]; intros acc; cbn [generate_exams flat_map].
  - rewrite app_nil_r; reflexivity.
  - rewrite (bind_ok _ _ _ (generate_sessions_ok e [gozen; gogo] acc)). cbn [snd].
    rewrite IH, app_assoc. reflexivity.
Qed.

(** [generateAllQuestions] never fails: it returns the concatenation of
    the questions of every configured exam, morning then afternoon; a
    session whose generation throws contributes nothing. *)
Theorem generateAllQuestions_collects :
  snd (generateAllQuestions parseAnswerText parseQuestionText extractChoices locateSection
         flexibleChoices1 flexibleChoices2 detectSupplementReferences linkSupplementReferences
         getCategoryByQuestionNumber ws) =
  Ok (flat_map (fun e => flat_map (fun s => ok_or_nil (snd (gs e s))) [gozen; gogo])
         PdfConfig.getAvailableExamNumbers).
Proof. unfold generateAllQuestions. rewrite generate_exams_ok. reflexivity. Qed.

Lemma home_sessions_eq e ss acc :
  home_sessions parseAnswerText parseQuestionText extractChoices locateSection
    flexibleChoices1 flexibleChoices2 detectSupplementReferences linkSupplementReferences
    getCategoryByQuestionNumber ws e ss acc =
  generate_sessions parseAnswerText parseQuestionText extractChoices locateSection
    flexibleChoices1 flexibleChoices2 detectSupplementReferences linkSupplementReferences
    getCategoryByQuestionNumber ws e ss acc.
Proof.
  revert acc. induction ss as [|s ss IH]; intros acc; cbn [home_sessions generate_sessions];
    [reflexivity|].
  apply bind_ext. intros [qs|msg]; rewrite IH; [|reflexivity].
  destruct qs as [|q qs]; cbn; [rewrite app_nil_r|]; reflexivity.
Qed.

(** The loading loop of [Home]'s mount effect performs the same requests
    and yields the same questions as [generateAllQuestions]. *)
Theorem home_load_matches_generateAll :
  home_loadQuestions parseAnswerText parseQuestionText extractChoices locateSection
    flexibleChoices1 flexibleChoices2 detectSupplementReferences linkSupplementReferences
    getCategoryByQuestionNumber ws =
  generateAllQuestions parseAnswerText parseQuestionText extractChoices locateSection
    flexibleChoices1 flexibleChoices2 detectSupplementReferences linkSupplementReferences
    getCategoryByQuestionNumber ws.
Proof.
  unfold home_loadQuestions, generateAllQuestions.
  generalize (@nil Question). induction PdfConfig.getAvailableExamNumbers as [|e es IH];
    intros acc; cbn [home_exams generate_exams]; [reflexivity|].
  rewrite home_sessions_eq. apply bind_ext. exact IH.
Qed.

End BatchProps.

Lemma firstn_skipn_app_len {A} (l1 l2 : list A) :
  firstn (length l1) (l1 ++ l2) = l1 /\ skipn (length l1) (l1 ++ l2) = l2.
Proof. induction l1 as [|x l1 IH]; cbn; [split; reflexivity | destruct IH as [-> ->]; split; reflexivity]. Qed.

Lemma unanswered_props qs ci st :
  length (QuestionSession.unansweredAnswers qs ci st) = length qs - ci /\
  map QuestionSession.questionId (QuestionSession.unansweredAnswers qs ci st) =
    map qid (skipn ci qs) /\
  forall a, In a (QuestionSession.unansweredAnswers qs ci st) ->
    QuestionSession.selectedAnswer a = None /\ QuestionSession.isCorrect a = false /\
    QuestionSession.status a = st /\ QuestionSession.timeSpent a = 0.
Proof.
  unfold QuestionSession.unansweredAnswers. split; [|split].
  - rewrite length_map, length_skipn. reflexivity.
  - rewrite map_map. reflexivity.
  - intros a Hin. apply in_map_iff in Hin as [q [<- _]]. repeat split.
Qed.

(** [handleTimeUp] keeps the recorded answers in front and adds, in
    order, one unselected, incorrect [timeout] answer with no time spent
    for each question from the current index on. *)
Theorem handleTimeUp_completes (answersRef : list QuestionSession.Answer)
    (questions : list Question) (currentIndex : nat) :
  let r := QuestionSession.handleTimeUp answersRef questions currentIndex in
  length r = length answersRef + (length questions - currentIndex) /\
  firstn (length answersRef) r = answersRef /\
  map QuestionSession.questionId (skipn (length answersRef) r) =
    map qid (skipn currentIndex questions) /\
  (forall a, In a (skipn (length answersRef) r) ->
     QuestionSession.selectedAnswer a = None /\ QuestionSession.isCorrect a = false /\
     QuestionSession.status a = QuestionSession.timeout /\ QuestionSession.timeSpent a = 0).
Proof.
  cbn zeta. unfold QuestionSession.handleTimeUp.
  destruct (unanswered_props questions currentIndex QuestionSession.timeout) as [H1 [H2 H3]].
  destruct (firstn_skipn_app_len answersRef
              (QuestionSession.unansweredAnswers questions currentIndex QuestionSession.timeout))
    as [-> ->].
  rewrite length_app, H1. split; [reflexivity|]. split; [reflexivity|]. split; [exact H2 | exact H3].
Qed.

(** [handleQuit] reports the current index plus one and adds, after the
    recorded answers, one unselected, incorrect [quit] answer with no time
    spent for each question from the current index on. *)
Theorem handleQuit_completes (answersRef : list QuestionSession.Answer)
    (questions : list Question) (currentIndex : nat) :
  let r := QuestionSession.handleQuit answersRef questions currentIndex in
  snd r = currentIndex + 1 /\
  length (fst r) = length answersRef + (length questions - currentIndex) /\
  firstn (length answersRef) (fst r) = answersRef /\
  map QuestionSession.questionId (skipn (length answersRef) (fst r)) =
    map qid (skipn currentIndex questions) /\
  (forall a, In a (skipn (length answersRef) (fst r)) ->
     QuestionSession.selectedAnswer a = None /\ QuestionSession.isCorrect a = false /\
     QuestionSession.status a = QuestionSession.quit /\ QuestionSession.timeSpent a = 0).
Proof.
  cbn zeta. unfold QuestionSession.handleQuit. cbn [fst snd].
  destruct (unanswered_props questions currentIndex QuestionSession.quit) as [H1 [H2 H3]].
  destruct (firstn_skipn_app_len answersRef
              (QuestionSession.unansweredAnswers questions currentIndex QuestionSession.quit))
    as [-> ->].
  rewrite length_app, H1. split; [reflexivity|]. split; [reflexivity|]. split; [reflexivity|]. split; [exact H2 | exact H3].
Qed.


Lemma all_digits_app a b : all_digits (a ++ b) = all_digits a && all_digits b.
Proof. induction a as [|c a IH]; cbn; [reflexivity|]. rewrite IH, andb_assoc. reflexivity. Qed.

Lemma pad2_digits n : all_digits (pad2 n) = true.
Proof.
  unfold pad2, QuestionSession.padStart. rewrite all_digits_app, of_nat_digits, andb_true_r.
  generalize (2 - Js.length (Js.of_nat n)). intros k; induction k; cbn; [reflexivity | exact IHk].
Qed.

Lemma pad2_check :
  forallb (fun m => forallb (fun m' => implb (String.eqb (pad2 m) (pad2 m')) (Nat.eqb m m'))
                      (seq 0 60)) (seq 0 60) = true.
Proof. vm_compute. reflexivity. Qed.

Lemma pad2_inj m m' : m < 60 -> m' < 60 -> pad2 m = pad2 m' -> m = m'.
Proof.
  intros Hm Hm' H. pose proof pad2_check as C.
  rewrite forallb_forall in C. specialize (C m ltac:(apply in_seq; lia)).
  rewrite forallb_forall in C. specialize (C m' ltac:(apply in_seq; lia)).
  rewrite H, String.eqb_refl in C. cbn in C. apply Nat.eqb_eq. exact C.
Qed.

Lemma split_digits (sep : ascii) a b x y :
  is_digit sep = false -> all_digits a = true -> all_digits b = true ->
  a ++ String sep x = b ++ String sep y -> a = b /\ x = y.
Proof.
  intros Hsep. revert b. induction a as [|c a IH]; intros b Ha Hb H; destruct b as [|d b].
  - cbn in H. injection H as ->. split; reflexivity.
  - cbn in H, Hb. injection H as -> _. rewrite Hsep in Hb. discriminate.
  - cbn in H, Ha. injection H as -> _. rewrite Hsep in Ha. discriminate.
  - cbn in H, Ha, Hb. injection H as -> H.
    apply andb_prop in Ha as [_ Ha]. apply andb_prop in Hb as [_ Hb].
    destruct (IH b Ha Hb H) as [-> ->]. split; reflexivity.
Qed.

Lemma digits_no_sep (sep : ascii) t a b :
  is_digit sep = false -> all_digits t = true -> t <> a ++ String sep b.
Proof.
  intros Hsep Ht ->. rewrite all_digits_app in Ht. apply andb_prop in Ht as [_ Ht].
  cbn in Ht. rewrite Hsep in Ht. discriminate.
Qed.

Lemma time_decomp s : s = 3600 * (s / 3600) + 60 * ((s mod 3600) / 60) + s mod 60.
Proof.
  assert (Hs : s = s mod 3600 + (60 * (s / 3600)) * 60)
    by (pose proof (Nat.div_mod s 3600 ltac:(lia)); lia).
  assert (Hm : s mod 60 = (s mod 3600) mod 60)
    by (rewrite Hs at 1; apply Nat.Div0.mod_add).
  pose proof (Nat.div_mod (s mod 3600) 60 ltac:(lia)).
  pose proof (Nat.div_mod s 3600 ltac:(lia)). lia.
Qed.

(** [formatTime] prints different second counts differently. *)
Theorem formatTime_injective (a b : nat) :
  QuestionSession.formatTime a = QuestionSession.formatTime b -> a = b.
Proof.
  assert (Hc : is_digit ":" = false) by reflexivity.
  assert (Hmin : forall s, (s mod 3600) / 60 < 60)
    by (intros s; apply Nat.Div0.div_lt_upper_bound; pose proof (Nat.mod_upper_bound s 3600); lia).
  assert (Hsec : forall s, s mod 60 < 60) by (intros s; apply Nat.mod_upper_bound; lia).
  intros H. pose proof (time_decomp a) as Da. pose proof (time_decomp b) as Db.
  pose proof (Hmin a) as Ma. pose proof (Hmin b) as Mb.
  pose proof (Hsec a) as Sa. pose proof (Hsec b) as Sb.
  revert H Da Db Ma Mb Sa Sb. unfold QuestionSession.formatTime. cbv zeta.
  generalize (a / 3600) ((a mod 3600) / 60) (a mod 60) (b / 3600) ((b mod 3600) / 60) (b mod 60).
  intros h m x h' m' x' H Da Db Ma Mb Sa Sb.
  fold (pad2 m) (pad2 x) (pad2 m') (pad2 x') in H. cbn [append] in H.
  destruct (Nat.ltb_spec 0 h) as [Ph|Ph], (Nat.ltb_spec 0 h') as [Ph'|Ph'];
    destruct (split_digits ":" _ _ _ _ Hc (of_nat_digits _) (of_nat_digits _) H) as [H1 H'];
    apply of_nat_inj in H1.
  - destruct (split_digits ":" _ _ _ _ Hc (pad2_digits _) (pad2_digits _) H') as [H2 H3].
    apply (pad2_inj _ _ Ma Mb) in H2. apply (pad2_inj _ _ Sa Sb) in H3. lia.
  - exfalso. exact (digits_no_sep ":" (pad2 x') _ _ Hc (pad2_digits _) (eq_sym H')).
  - exfalso. exact (digits_no_sep ":" (pad2 x) _ _ Hc (pad2_digits _) H').
  - apply (pad2_inj _ _ Sa Sb) in H'. lia.
Qed.

Lemma cat_eqb_spec a b : CategoryConfig.cat_eqb a b = true <-> a = b.
Proof. destruct a, b; cbn; split; intros H; try reflexivity; discriminate. Qed.

Section Toggle.

Variable A : Type.
Variable eqb : A -> A -> bool.
Hypothesis eqb_spec : forall a b, eqb a b = true <-> a = b.


Lemma existsb_eqb_in l x : existsb (eqb x) l = true <-> In x l.
Proof.
  rewrite existsb_exists. split.
  - intros [y [Hy E]]. apply eqb_spec in E. subst; exact Hy.
  - intros H. exists x. split; [exact H | apply eqb_spec; reflexivity].
Qed.

Lemma toggle_props l x :
  (In x (toggle eqb l x) <-> ~ In x l) /\
  (forall y, y <> x -> (In y (toggle eqb l x) <-> In y l)) /\
  (NoDup l -> NoDup (toggle eqb l x)) /\
  (~ In x l -> toggle eqb (toggle eqb l x) x = l).
Proof.
  unfold toggle. destruct (existsb (eqb x) l) eqn:E.
  - apply existsb_eqb_in in E.
    split; [|split; [|split]].
    + rewrite filter_In. split; [intros [_ H]; exfalso|intros H; contradiction].
      rewrite (proj2 (eqb_spec x x) eq_refl) in H. discriminate.
    + intros y Hy. rewrite filter_In. split; [intros [H _]; exact H|intros H; split; [exact H|]].
      destruct (eqb y x) eqn:Ey; [apply eqb_spec in Ey; contradiction | reflexivity].
    + apply NoDup_filter.
    + intros H; contradiction.
  - assert (Hn : ~ In x l) by (intros H; apply existsb_eqb_in in H; congruence).
    split; [|split; [|split]].
    + rewrite in_app_iff. split; [intros _; exact Hn | intros _; right; left; reflexivity].
    + intros y Hy. rewrite in_app_iff. cbn. split; [intros [H|[H|[]]]; [exact H | congruence] | auto].
    + intros Hnd. apply NoDup_app; [exact Hnd | repeat constructor; intros [] |].
      intros y Hy [<-|[]]. contradiction.
    + intros _. assert (existsb (eqb x) (l ++ [x]) = true) as ->
        by (apply existsb_eqb_in; apply in_or_app; right; left; reflexivity).
      rewrite filter_app. cbn. rewrite (proj2 (eqb_spec x x) eq_refl). cbn. rewrite app_nil_r.
      apply forallb_filter_id. apply forallb_forall. intros y Hy.
      destruct (eqb y x) eqn:Ey; [apply eqb_spec in Ey; subst; contradiction | reflexivity].
Qed.

End Toggle.

(** [toggleExamNumber] flips the membership of the toggled exam only,
    keeps a duplicate-free selection duplicate-free, and toggling an absent
    exam twice gives the selection back. *)
Theorem toggleExamNumber_flips (selected : list nat) (n : nat) :
  (In n (Home.toggleExamNumber selected n) <-> ~ In n selected) /\
  (forall m, m <> n -> (In m (Home.toggleExamNumber selected n) <-> In m selected)) /\
  (NoDup selected -> NoDup (Home.toggleExamNumber selected n)) /\
  (~ In n selected -> Home.toggleExamNumber (Home.toggleExamNumber selected n) n = selected).
Proof.
  exact (toggle_props nat Nat.eqb (fun a b => Nat.eqb_eq a b) selected n).
Qed.

(** [toggleCategory] flips the membership of the toggled category only,
    keeps a duplicate-free selection duplicate-free, and toggling an absent
    category twice gives the selection back. *)
Theorem toggleCategory_flips (selected : list CategoryConfig.CategoryId)
    (c : CategoryConfig.CategoryId) :
  (In c (Home.toggleCategory selected c) <-> ~ In c selected) /\
  (forall d, d <> c -> (In d (Home.toggleCategory selected c) <-> In d selected)) /\
  (NoDup selected -> NoDup (Home.toggleCategory selected c)) /\
  (~ In c selected -> Home.toggleCategory (Home.toggleCategory selected c) c = selected).
Proof.
  exact (toggle_props CategoryConfig.CategoryId CategoryConfig.cat_eqb cat_eqb_spec selected c).
Qed.


Lemma insert_by_number_perm q l : Permutation (q :: l) (Home.insert_by_number q l).
Proof.
  induction l as [|x l IH]; cbn; [reflexivity|].
  destruct (Nat.leb (questionNumber q) (questionNumber x)); [reflexivity|].
  rewrite perm_swap. constructor. exact IH.
Qed.

Lemma insert_by_number_hd x q l :
  HdRel by_number x l -> by_number x q -> HdRel by_number x (Home.insert_by_number q l).
Proof.
  intros Hh Hq. destruct l as [|y l]; cbn; [constructor; exact Hq|].
  destruct (Nat.leb (questionNumber q) (questionNumber y)); constructor;
    [exact Hq | inversion Hh; assumption].
Qed.

Lemma insert_by_number_sorted q l :
  Sorted by_number l -> Sorted by_number (Home.insert_by_number q l).
Proof.
  induction l as [|x l IH]; intros Hs; cbn; [repeat constructor|].
  destruct (Nat.leb_spec (questionNumber q) (questionNumber x)).
  - constructor; [exact Hs | constructor; exact H].
  - inversion Hs as [|? ? Hl Hh]; subst.
    constructor; [exact (IH Hl)|].
    apply insert_by_number_hd; [exact Hh | unfold by_number; lia].
Qed.

Lemma sort_by_number_spec l :
  Sorted by_number (Home.sort_by_number l) /\ Permutation l (Home.sort_by_number l).
Proof.
  unfold Home.sort_by_number. induction l as [|q l [IHs IHp]]; cbn; [split; constructor|].
  split; [apply insert_by_number_sorted; exact IHs|].
  rewrite <- insert_by_number_perm. constructor. exact IHp.
Qed.

(** Without shuffling, [startExamMode] starts the exam with the full time
    limit and the session's questions in increasing question number: the
    loaded questions of that exam and session when there are any, otherwise
    those of the question store. *)
Theorem startExamMode_in_number_order
    (getQuestions : list nat -> list SessionType -> list Question + string)
    (shuffleOrder shuffleAllChoices : list Question -> list Question)
    (allLoadedQuestions : list Question) (e : nat) (s : SessionType) qs t :
  Home.startExamMode getQuestions shuffleOrder shuffleAllChoices allLoadedQuestions
    (Some e) s false false = Home.Start qs t ->
  let examQuestions :=
    filter (fun q => Nat.eqb (examNumber q) e && session_eqb (session q) s) allLoadedQuestions in
  t = Some Home.EXAM_TIME_LIMIT /\
  Sorted by_number qs /\
  (examQuestions <> [] -> Permutation examQuestions qs) /\
  (examQuestions = [] -> exists pool, getQuestions [e] [s] = inl pool /\ Permutation pool qs).
Proof.
  unfold Home.startExamMode. cbv zeta.
  set (mem := filter (fun q => Nat.eqb (examNumber q) e && session_eqb (session q) s)
                allLoadedQuestions).
  destruct mem as [|m ms] eqn:Hmem.
  - destruct (getQuestions [e] [s]) as [[|p ps]|err] eqn:Hg; intros H; try discriminate.
    injection H as <- <-. destruct (sort_by_number_spec (p :: ps)) as [Hs Hp].
    repeat split; try reflexivity; try exact Hs.
    + intros Hne; exfalso; apply Hne; reflexivity.
    + intros _. exists (p :: ps). split; [reflexivity | exact Hp].
  - intros H. injection H as <- <-. destruct (sort_by_number_spec (m :: ms)) as [Hs Hp].
    repeat split; try reflexivity; try exact Hs.
    + intros _; exact Hp.
    + intros Habs; discriminate.
Qed.

(** When [filteredQuestionCount] is positive, [startSession] draws from
    exactly the loaded questions that count counts, without consulting the
    question store; in test mode the limit is 75 seconds per question. *)
Theorem startSession_uses_loaded_pool
    (getQuestions : list nat -> list SessionType -> list Question + string)
    (shuffleOrder shuffleAllChoices : list Question -> list Question)
    (allLoadedQuestions : list Question) (mode : Home.Mode) (count : nat)
    (categories : list CategoryConfig.CategoryId) (examNumbers : list nat) :
  0 < Home.filteredQuestionCount allLoadedQuestions examNumbers categories ->
  let pool := filter (in_categories categories) (Home.of_exams examNumbers allLoadedQuestions) in
  let selected := shuffleAllChoices
                    (firstn (Nat.min count (length (shuffleOrder pool))) (shuffleOrder pool)) in
  length pool = Home.filteredQuestionCount allLoadedQuestions examNumbers categories /\
  Home.startSession getQuestions shuffleOrder shuffleAllChoices allLoadedQuestions mode count
    categories examNumbers =
  Home.Start selected
    (match mode with Home.test => Some (length selected * 75) | _ => None end).
Proof.
  unfold Home.filteredQuestionCount, Home.startSession. cbv zeta.
  destruct (Nat.eqb_spec (length examNumbers) 0) as [H1|H1]; [intros H; lia|].
  destruct (Nat.ltb_spec 0 (length categories)) as [H2|H2]; [|intros H; lia].
  destruct (Nat.eqb_spec (length categories) 0) as [H3|H3]; [lia|].
  destruct (filter (in_categories categories) (Home.of_exams examNumbers allLoadedQuestions))
    as [|q qs]; cbn [length]; intros H; [lia|].
  split; reflexivity.
Qed.

Lemma json_attempt_events_no_answer pa gc w k e s ev :
  w_answer_path w = None -> In ev (fst (json_attempt pa gc w k e s)) ->
  ev = EvCheckJson k \/ ev = EvFetchJson k.
Proof.
  intros Ha. unfold json_attempt, checkJsonExists, loadQuestionsFromJson, loadCorrectAnswers.
  rewrite Ha. cbn. destruct (w_json_head w k); cbn; [|intuition].
  destruct (w_json_get w k); cbn; intuition.
Qed.

Lemma prefix_app_cancel a b c : String.prefix (a ++ b) (a ++ c) = String.prefix b c.
Proof.
  induction a as [|x a IH]; cbn; [reflexivity|].
  destruct (ascii_dec x x) as [_|n]; [exact IH | exfalso; exact (n eq_refl)].
Qed.


Lemma load_supplements_fetch w p :
  w_bessatsu_path w = Some p -> In (EvFetchBessatsu p) (fst (load_supplements w)).
Proof. intros H. unfold load_supplements. rewrite H. destruct (w_pdf w p); left; reflexivity. Qed.

Section ConfigProps.

Variable parseAnswerText : string -> nat -> list AnswerEntry.
Variable parseQuestionText : string -> string.
Variable extractChoices : string -> list Choice.
Variable locateSection : string -> nat -> string.
Variable flexibleChoices1 : string -> list Choice.
Variable flexibleChoices2 : string -> list Choice.
Variable detectSupplementReferences : string -> list SupplementReference.
Variable linkSupplementReferences :
  list SupplementReference -> nat -> SessionType -> list Supplement -> list SupplementReference.
Variable getCategoryByQuestionNumber : nat -> SessionType -> string.

Local Abbreviation gen :=
  (generateQuestionsFromAnswerPdf parseAnswerText parseQuestionText extractChoices
     locateSection flexibleChoices1 flexibleChoices2 detectSupplementReferences
     linkSupplementReferences getCategoryByQuestionNumber).

(** For an exam missing from [EXAM_CONFIGS], [generateQuestionsFromAnswerPdf]
    does not fail and touches only the JSON file: no PDF is fetched or
    read. *)
Theorem unconfigured_exam_reads_no_pdf (e : nat) (s : SessionType) head get pdf supps :
  ~ In e PdfConfig.getAvailableExamNumbers ->
  let r := gen (config_world e s head get pdf supps) e s in
  (exists qs, snd r = Ok qs) /\
  forall ev, In ev (fst r) -> ev = EvCheckJson 0 \/ ev = EvFetchJson 0.
Proof.
  intros He. destruct (unconfigured_lookups e He) as [Hc [Ha _]]. cbv zeta.
  set (w := config_world e s head get pdf supps).
  assert (Hy : w_exam_year w = None) by (unfold w, config_world; cbn [w_exam_year]; rewrite Hc; reflexivity).
  assert (Hw : w_answer_path w = None) by exact Ha.
  destruct (json_attempt_ok parseAnswerText getCategoryByQuestionNumber w 0 e s) as [qs Hj].
  unfold generateQuestionsFromAnswerPdf. rewrite (bind_ok _ _ qs Hj).
  destruct qs as [|q qs]; [rewrite Hy|]; cbn [fst snd]; rewrite app_nil_r;
    (split; [eexists; reflexivity | intros ev Hev; exact (json_attempt_events_no_answer _ _ _ _ _ _ _ Hw Hev)]).
Qed.

(** For a configured exam, every failure of [generateQuestionsFromAnswerPdf]
    carries the exam and session prefix of its catch; when the JSON file
    yields nothing it reads the answer key [/answers/<n>_seitou.pdf] and
    fetches the session's supplement PDF. *)
Theorem configured_exam_generation (e : nat) (s : SessionType) head get pdf supps :
  In e PdfConfig.getAvailableExamNumbers ->
  let w := config_world e s head get pdf supps in
  let r := gen w e s in
  (forall m, snd r = Err m ->
     String.prefix ("第" ++ Js.of_nat e ++ "回 " ++ session_str s ++ "の問題生成に失敗: ") m
     = true) /\
  (snd (json_attempt parseAnswerText getCategoryByQuestionNumber w 0 e s) = Ok [] ->
     In (EvExtract ("/answers/" ++ Js.of_nat e ++ "_seitou.pdf")) (fst r) /\
     exists bp, PdfConfig.getBessatsuPdfPath e s = Some bp /\
                In (EvFetchBessatsu bp) (fst r)).
Proof.
  intros He. cbv zeta.
  destruct (configured_lookups e s He) as [y [qp [bp [Hy [Ha [_ [Hq Hb]]]]]]].
  set (w := config_world e s head get pdf supps).
  assert (Hy' : w_exam_year w = Some y) by exact Hy.
  assert (Ha' : w_answer_path w = Some ("/answers/" ++ Js.of_nat e ++ "_seitou.pdf")) by exact Ha.
  assert (Hq' : w_question_path w = Some qp) by exact Hq.
  assert (Hb' : w_bessatsu_path w = Some bp) by exact Hb.
  destruct (json_attempt_ok parseAnswerText getCategoryByQuestionNumber w 0 e s) as [qs Hj].
  destruct qs as [|q qs].
  - destruct (gen_text_branch parseAnswerText parseQuestionText extractChoices locateSection
                flexibleChoices1 flexibleChoices2 detectSupplementReferences
                linkSupplementReferences getCategoryByQuestionNumber w e s y _ qp Hj Hy' Ha' Hq')
      as [supps' [_ Hg]].
    rewrite Hg. cbn [fst snd]. split.
    + intros m. destruct (snd (text_path parseAnswerText parseQuestionText extractChoices
                locateSection flexibleChoices1 flexibleChoices2 detectSupplementReferences
                linkSupplementReferences getCategoryByQuestionNumber w e y s
                ("/answers/" ++ Js.of_nat e ++ "_seitou.pdf") qp supps')) as [v|msg] eqn:Ht.
      * rewrite (catch_ok _ _ v Ht), Ht. discriminate.
      * rewrite (catch_err _ _ msg Ht). cbn [snd throw]. intros H. injection H as <-.
        cbn [append]. repeat (simpl; rewrite ?prefix_app_cancel). destruct msg; reflexivity.
    + intros _. split.
      * apply in_or_app; right. apply in_or_app; right.
        apply in_fst_catch, text_path_extracts_answer_key.
      * exists bp. split; [exact Hb|].
        apply in_or_app; right. apply in_or_app; left. apply load_supplements_fetch; exact Hb'.
  - unfold generateQuestionsFromAnswerPdf. rewrite (bind_ok _ _ (q :: qs) Hj). cbn [fst snd].
    split; [intros m H; discriminate | intros H; rewrite Hj in H; discriminate].
Qed.

End ConfigProps.

(* ------------------------------------------------------------------ *)
(** ** Instances of the properties at concrete inputs *)

Lemma category_of_range_witness :
  In (CategoryConfig.mkRange 41 50 CategoryConfig.law) (CategoryConfig.session_mapping gozen) /\
  CategoryConfig.getCategoryByQuestionNumber 45 gozen = CategoryConfig.law.
Proof.
  assert (H : In (CategoryConfig.mkRange 41 50 CategoryConfig.law)
                 (CategoryConfig.session_mapping gozen)) by (cbn; tauto).
  split; [exact H|].
  apply (category_of_range 45 gozen _ H); cbn; lia.
Defined.

Lemma exam_lookups_defined_witness :
  PdfConfig.getAnswerPdfPath 30 = Some "/answers/30_seitou.pdf" /\
  PdfConfig.getBessatsuPdfPath 34 gogo = None.
Proof.
  split.
  - destruct (exam_lookups_defined 30 gozen) as [H _].
    destruct (H ltac:(cbn; tauto)) as [y [qp [bp [_ [Ha _]]]]]. exact Ha.
  - destruct (exam_lookups_defined 34 gogo) as [_ H].
    apply H. cbn. intuition discriminate.
Defined.

Lemma pdf_paths_listed_witness :
  PdfConfig.getBessatsuPdfPath 29 gozen = Some "/pdfs/2021_29_gozen_bessatsu.pdf" /\
  In "2021_29_gozen_bessatsu.pdf" PdfConfig.getAllPdfFilenames.
Proof.
  assert (H : PdfConfig.getBessatsuPdfPath 29 gozen = Some "/pdfs/2021_29_gozen_bessatsu.pdf")
    by reflexivity.
  split; [exact H|].
  destruct (pdf_paths_listed 29 gozen _ (or_intror H)) as [f [Hf Hin]].
  unfold PdfConfig.PDF_BASE_PATHS_questions in Hf. cbn in Hf.
  repeat (injection Hf as Hf). subst f. exact Hin.
Defined.

Lemma render_page_memo_witness :
  renderBessatsuPage unit demo_fetch true demo_numPages demo_draw
    [("29-gozen-1-2", "data:image/png;base64,p1")] 29 gozen 1 "2" =
  ([], Some "data:image/png;base64,p1", [("29-gozen-1-2", "data:image/png;base64,p1")]).
Proof.
  apply (proj2 (render_page_memo unit demo_fetch true demo_numPages demo_draw [] 29 gozen 1 "2")
           [RFetch "/pdfs/2021_29_gozen_bessatsu.pdf"; RRender 1]);
    reflexivity.
Defined.

Lemma render_page_cache_write_witness :
  renderBessatsuPage unit demo_fetch true demo_numPages demo_draw [] 29 gozen 1 "2" =
    ([RFetch "/pdfs/2021_29_gozen_bessatsu.pdf"; RRender 1], Some "data:image/png;base64,p1",
     [("29-gozen-1-2", "data:image/png;base64,p1")]) /\
  JsMap.get [] (cacheKey 29 gozen 1 "2") = None.
Proof.
  assert (H : renderBessatsuPage unit demo_fetch true demo_numPages demo_draw [] 29 gozen 1 "2" =
    ([RFetch "/pdfs/2021_29_gozen_bessatsu.pdf"; RRender 1], Some "data:image/png;base64,p1",
     [("29-gozen-1-2", "data:image/png;base64,p1")])) by reflexivity.
  split; [exact H|].
  destruct (render_page_cache_write unit demo_fetch true demo_numPages demo_draw
              [] 29 gozen 1 "2" _ _ _ H) as [Habs | [u [_ [_ [Hn _]]]]];
    [discriminate | exact Hn].
Defined.

Lemma render_all_pages_cached_witness :
  renderAllBessatsuPages unit demo_fetch true demo_numPages demo_draw [] 29 gozen "2" =
    ([RFetch "/pdfs/2021_29_gozen_bessatsu.pdf"; RRender 1; RRender 2],
     [(1, "data:image/png;base64,p1"); (2, "data:image/png;base64,p2")],
     [("29-gozen-1-2", "data:image/png;base64,p1"); ("29-gozen-2-2", "data:image/png;base64,p2")]) /\
  JsMap.get [("29-gozen-1-2", "data:image/png;base64,p1"); ("29-gozen-2-2", "data:image/png;base64,p2")]
    (cacheKey 29 gozen 2 "2") = Some "data:image/png;base64,p2".
Proof.
  assert (H : renderAllBessatsuPages unit demo_fetch true demo_numPages demo_draw [] 29 gozen "2" =
    ([RFetch "/pdfs/2021_29_gozen_bessatsu.pdf"; RRender 1; RRender 2],
     [(1, "data:image/png;base64,p1"); (2, "data:image/png;base64,p2")],
     [("29-gozen-1-2", "data:image/png;base64,p1"); ("29-gozen-2-2", "data:image/png;base64,p2")]))
    by reflexivity.
  split; [exact H|].
  destruct (render_all_pages_cached unit demo_fetch true demo_numPages demo_draw
              [] 29 gozen "2" _ _ _ H) as [Hres _].
  apply (Hres 2). right; left; reflexivity.
Defined.

Lemma formatTime_injective_witness :
  QuestionSession.formatTime 3725 = "1:02:05" /\
  forall b, QuestionSession.formatTime b = "1:02:05" -> b = 3725.
Proof.
  assert (H : QuestionSession.formatTime 3725 = "1:02:05") by (vm_compute; reflexivity).
  split; [exact H|].
  intros b Hb. symmetry. apply formatTime_injective. rewrite Hb. exact H.
Defined.

Lemma toggleExamNumber_flips_witness :
  Home.toggleExamNumber [29; 31] 30 = [29; 31; 30] /\
  Home.toggleExamNumber (Home.toggleExamNumber [29; 31] 30) 30 = [29; 31].
Proof.
  split; [reflexivity|].
  destruct (toggleExamNumber_flips [29; 31] 30) as [_ [_ [_ H]]].
  apply H. cbn. lia.
Defined.

Lemma toggleCategory_flips_witness :
  NoDup (Home.toggleCategory [CategoryConfig.law; CategoryConfig.anatomy] CategoryConfig.law) /\
  ~ In CategoryConfig.law
      (Home.toggleCategory [CategoryConfig.law; CategoryConfig.anatomy] CategoryConfig.law).
Proof.
  destruct (toggleCategory_flips [CategoryConfig.law; CategoryConfig.anatomy] CategoryConfig.law)
    as [H1 [_ [H3 _]]].
  split.
  - apply H3. repeat constructor; cbn; intuition discriminate.
  - intros Hin. apply H1 in Hin. apply Hin. left; reflexivity.
Defined.

Lemma startExamMode_in_number_order_witness :
  Home.startExamMode (fun _ _ => inl []) id id exam_pool (Some 30) gozen false false =
    Home.Start [exam_q 3; exam_q 45] (Some Home.EXAM_TIME_LIMIT) /\
  Sorted by_number [exam_q 3; exam_q 45].
Proof.
  assert (H : Home.startExamMode (fun _ _ => inl []) id id exam_pool (Some 30) gozen false false =
    Home.Start [exam_q 3; exam_q 45] (Some Home.EXAM_TIME_LIMIT)) by (vm_compute; reflexivity).
  split; [exact H|].
  pose proof (startExamMode_in_number_order _ _ _ _ _ _ _ _ H) as Hs. cbv zeta in Hs.
  destruct Hs as [_ [Hs _]]. exact Hs.
Defined.

Lemma startSession_uses_loaded_pool_witness :
  0 < Home.filteredQuestionCount exam_pool [30] [CategoryConfig.law] /\
  Home.startSession (fun _ _ => inl []) id id exam_pool Home.test 1 [CategoryConfig.law] [30] =
    Home.Start [exam_q 45] (Some 75).
Proof.
  assert (H : 0 < Home.filteredQuestionCount exam_pool [30] [CategoryConfig.law])
    by (vm_compute; lia).
  split; [exact H|].
  destruct (startSession_uses_loaded_pool (fun _ _ => inl []) id id exam_pool Home.test 1
              [CategoryConfig.law] [30] H) as [_ Hs].
  rewrite Hs. vm_compute. reflexivity.
Defined.

Lemma unconfigured_exam_reads_no_pdf_witness :
  ~ In 34 PdfConfig.getAvailableExamNumbers /\
  exists qs, snd (gen_plain (fun _ _ => []) (demo_world 34 gozen) 34 gozen) = Ok qs.
Proof.
  assert (H : ~ In 34 PdfConfig.getAvailableExamNumbers) by (cbn; intuition discriminate).
  split; [exact H|].
  exact (proj1 (unconfigured_exam_reads_no_pdf (fun _ _ => []) (fun _ => "") (fun _ => [])
                  (fun _ _ => "") (fun _ => []) (fun _ => []) (fun _ => [])
                  (fun refs _ _ _ => refs) (fun _ _ => "") 34 gozen
                  (fun _ => false) (fun _ => JsonNotOk) (fun _ => PdfMissing) [] H)).
Defined.

Lemma configured_exam_generation_witness :
  In 29 PdfConfig.getAvailableExamNumbers /\
  snd (json_attempt (fun _ _ => []) (fun _ _ => "") (demo_world 29 gozen) 0 29 gozen) = Ok [] /\
  In (EvExtract "/answers/29_seitou.pdf")
    (fst (gen_plain (fun _ _ => []) (demo_world 29 gozen) 29 gozen)).
Proof.
  assert (He : In 29 PdfConfig.getAvailableExamNumbers) by (cbn; tauto).
  assert (Hj : snd (json_attempt (fun _ _ => []) (fun _ _ => "") (demo_world 29 gozen) 0 29 gozen)
               = Ok []) by (vm_compute; reflexivity).
  split; [exact He | split; [exact Hj|]].
  pose proof (configured_exam_generation (fun _ _ => []) (fun _ => "") (fun _ => [])
                (fun _ _ => "") (fun _ => []) (fun _ => []) (fun _ => [])
                (fun refs _ _ _ => refs) (fun _ _ => "") 29 gozen
                (fun _ => false) (fun _ => JsonNotOk) (fun _ => PdfMissing) [] He) as Hc.
  cbv zeta in Hc. destruct Hc as [_ Hc]. exact (proj1 (Hc Hj)).
Defined.
